(** * kibutsu: the HTTP dispatch layer, the project orchestrator and the
      dashboard stores

    Part I holds the definitions.

    - [main.go]: the middleware chain, the two routing muxes, the route
      handlers, the health and engine-info handlers and the start-up
      sequence of [main].  Handlers are functions in a state-and-panic
      monad [Go] over a [World] that holds the connection's response, the
      process log, the clock, the UUID generator and the engine.  The
      calls into [net/http], [context], [strings], [log], [time], [uuid]
      and the docker client are modelled next to them.
    - [Orchestrator]: [Down] and [Scale] of the project lifecycle
      orchestrator (package [kibutsu/api/handlers]).
    - [Stores]: the Svelte stores of [frontend/src/lib/stores/docker.ts].
    - [Dashboard]: the same file as a whole: the five stores, the error
      store, the WebSocket message handler and the automatic refresh.

    Part II holds the theorems, in the same order. *)

From stdpp Require Import base strings pretty gmap list sorting.
From Stdlib Require Import ZArith Lia Ascii String.

Local Open Scope string_scope.
Local Open Scope Z_scope.

(** * Part I: definitions *)

(** ** Byte strings as package [strings] sees them *)

Module GoStrings.

(** [strings.CutPrefix]: the rest of [s] after [prefix], when [s] starts
    with it. *)
Fixpoint CutPrefix (s prefix : string) {struct prefix} : option string :=
  match prefix, s with
  | EmptyString, _ => Some s
  | String c p, String d t => if Ascii.eqb c d then CutPrefix t p else None
  | String _ _, EmptyString => None
  end.

Definition HasPrefix (s prefix : string) : bool :=
  match CutPrefix s prefix with Some _ => true | None => false end.

Definition TrimPrefix (s prefix : string) : string :=
  match CutPrefix s prefix with Some t => t | None => s end.

Definition eqs (a b : string) : bool := String.eqb a b.

(** [strings.HasSuffix]: [s] is [suffix], or what follows its first byte
    ends with [suffix]. *)
Fixpoint HasSuffix (s suffix : string) : bool :=
  eqs s suffix
  || match s with
     | EmptyString => false
     | String _ t => HasSuffix t suffix
     end.

(** [strings.Split(s, sep)] for a one-byte separator, the only use in the
    program ([sep = "/"]).  The result is never empty: a string without
    the separator comes back as the one-element slice [[s]]. *)
Fixpoint Split (s : string) (sep : ascii) : list string :=
  match s with
  | EmptyString => [EmptyString]
  | String c t =>
      if Ascii.eqb c sep then EmptyString :: Split t sep
      else match Split t sep with
           | p :: ps => String c p :: ps
           | [] => [String c EmptyString]
           end
  end.

End GoStrings.

Export GoStrings.

Definition slash : ascii := "/"%char.

(** ** Package [context] *)

(** Context keys are compared by dynamic type and value: [main.contextKey]
    values never collide with the keys of other packages. *)
Inductive Key :=
| contextKey (s : string)
| foreignKey (pkg s : string).

Definition requestIDKey : Key := contextKey "requestID".

Definition Key_eqb (a b : Key) : bool :=
  match a, b with
  | contextKey s, contextKey t => eqs s t
  | foreignKey p s, foreignKey q t => eqs p q && eqs s t
  | _, _ => false
  end.

(** A context is the chain of its derivations.  [WithCancel p at] is a
    child whose cancel function is called at instant [at] ([None]: never),
    which is how the server models a client that goes away; instants are
    nanoseconds on the clock of [World]. *)
Inductive Context :=
| Background
| WithCancel (parent : Context) (cancelledAt : option Z)
| WithDeadline (parent : Context) (deadline : Z)
| WithValue (parent : Context) (key : Key) (val : string).

Fixpoint Value (c : Context) (k : Key) : option string :=
  match c with
  | Background => None
  | WithCancel p _ => Value p k
  | WithDeadline p _ => Value p k
  | WithValue p k' v => if Key_eqb k' k then Some v else Value p k
  end.

(** [Done c t]: the channel [c.Done()] is closed at instant [t]. *)
Fixpoint Done (c : Context) (t : Z) : bool :=
  match c with
  | Background => false
  | WithCancel p (Some a) => Done p t || (a <=? t)
  | WithCancel p None => Done p t
  | WithDeadline p d => Done p t || (d <=? t)
  | WithValue p _ _ => Done p t
  end.

Fixpoint Deadline (c : Context) : option Z :=
  match c with
  | Background => None
  | WithCancel p _ => Deadline p
  | WithDeadline p d =>
      match Deadline p with
      | Some d' => Some (Z.min d' d)
      | None => Some d
      end
  | WithValue p _ _ => Deadline p
  end.

(** [derived c p]: [c] was obtained from [p] by [With...] calls. *)
Fixpoint derived (c p : Context) {struct c} : Prop :=
  c = p \/
  match c with
  | Background => False
  | WithCancel q _ => derived q p
  | WithDeadline q _ => derived q p
  | WithValue q _ _ => derived q p
  end.

Definition Second : Z := 1000000000.

(** [context.WithTimeout(parent, d)] called at instant [now]; the cancel
    function it also returns only releases the timer when it is deferred
    to the end of the handler. *)
Definition WithTimeout (parent : Context) (now d : Z) : Context :=
  WithDeadline parent (now + d).

(** ** The process world and the [Go] monad *)

(** Arguments of a [log.Printf] call, kept symbolic: the entry records the
    format and what was passed, not the rendered line. *)
Inductive LogArg :=
| LStr (s : string)
| LInt (n : Z)
| LDuration (ns : Z)
| LValue (v : option string)   (* an [any] taken from a context: nil or a string *)
| LStack                       (* the bytes of [debug.Stack()] *)
| LCaller (field : string).    (* a field of the stack frame of a caller *)

Record LogEntry := Printf { format : string; args : list LogArg }.

Definition nl : string := String (ascii_of_nat 10) EmptyString.
Definition dq : string := String (ascii_of_nat 34) EmptyString.

(** The container engine as the docker client sees it: [daemonErr] is the
    error every call returns while the daemon cannot be reached, [None]
    when it answers; [infoJSON] is the JSON rendering of the daemon's
    [Info] reply; [requestErr e] is the text of the error the client
    returns for a call whose context has ended with the error [e]: that
    of the [*url.Error] of its HTTP request, which names the method and
    the address of the daemon around [e]. *)
Record Engine := {
  daemonErr : option string;
  infoJSON : string;
  requestErr : string -> string
}.

(** [http.Header]: canonical key to values. *)
Abbreviation Header := (gmap string (list string)).

(** The response of one connection.  [committed] is the status line and
    header snapshot that went on the wire with the first [WriteHeader] or
    [Write]; later changes of [header] and later [WriteHeader] calls do not
    reach the client. *)
Record Response := {
  header : Header;
  committed : option (Z * Header);
  body : string
}.

Definition emptyResponse : Response :=
  {| header := ∅; committed := None; body := EmptyString |}.

(** The process and the request it is serving.  The [*url.URL] of the
    request is one value shared by the requests the middleware passes on
    ([Request.WithContext] copies the request, not its URL): [urlPath] is
    the path a handler has assigned to it in place, [None] while it is as
    the server parsed it. *)
Record World := {
  clock : Z;                (* [time.Now()], nanoseconds *)
  logs : list LogEntry;     (* output of package [log], oldest first *)
  uuids : list string;      (* what [uuid.New().String()] returns next *)
  engine : Engine;
  resp : Response;
  cells : list Z;           (* the [status] fields of allocated [responseWriter]s *)
  urlPath : option string   (* [r.URL.Path] once assigned in place *)
}.

Definition set_resp (f : Response -> Response) (w : World) : World :=
  {| clock := clock w; logs := logs w; uuids := uuids w; engine := engine w;
     resp := f (resp w); cells := cells w; urlPath := urlPath w |}.

Definition set_logs (f : list LogEntry -> list LogEntry) (w : World) : World :=
  {| clock := clock w; logs := f (logs w); uuids := uuids w; engine := engine w;
     resp := resp w; cells := cells w; urlPath := urlPath w |}.

Definition set_uuids (f : list string -> list string) (w : World) : World :=
  {| clock := clock w; logs := logs w; uuids := f (uuids w); engine := engine w;
     resp := resp w; cells := cells w; urlPath := urlPath w |}.

Definition set_cells (f : list Z -> list Z) (w : World) : World :=
  {| clock := clock w; logs := logs w; uuids := uuids w; engine := engine w;
     resp := resp w; cells := f (cells w); urlPath := urlPath w |}.

Definition set_urlPath (p : string) (w : World) : World :=
  {| clock := clock w; logs := logs w; uuids := uuids w; engine := engine w;
     resp := resp w; cells := cells w; urlPath := Some p |}.

(** A Go call either returns or is unwinding with a panic value (printed
    with [%v]).  Handlers are modelled as calls that do one or the other. *)
Inductive Outcome (A : Type) :=
| Returned (a : A)
| Panicking (v : string).

Arguments Returned {A} a.
Arguments Panicking {A} v.

Definition Go (A : Type) : Type := World -> Outcome A * World.

#[global] Instance Go_ret : MRet Go := fun A a w => (Returned a, w).

#[global] Instance Go_bind : MBind Go := fun A B f m w =>
  match m w with
  | (Returned a, w') => f a w'
  | (Panicking v, w') => (Panicking v, w')
  end.

Definition panic {A} (v : string) : Go A := fun w => (Panicking v, w).

(** [defer func() { if err := recover(); err != nil { h err } }()] around
    [body].  A panic value is never nil ([panic(nil)] panics with a
    [*runtime.PanicNilError]). *)
Definition deferRecover (body : Go unit) (h : string -> Go unit) : Go unit :=
  fun w =>
    match body w with
    | (Returned tt, w') => (Returned tt, w')
    | (Panicking v, w') => h v w'
    end.

Definition modify (f : World -> World) : Go unit := fun w => (Returned tt, f w).
Definition gets {A} (f : World -> A) : Go A := fun w => (Returned (f w), w).

Definition time_Now : Go Z := gets clock.

Definition log_Printf (fmt : string) (a : list LogArg) : Go unit :=
  modify (set_logs (fun l => (l ++ [Printf fmt a])%list)).

(** [uuid.New().String()]: the next identifier of the generator (the nil
    UUID stands for a generator that ran out). *)
Definition nilUUID : string := "00000000-0000-0000-0000-000000000000".

Definition uuid_New : Go string := fun w =>
  (Returned (hd nilUUID (uuids w)), set_uuids (@tail string) w).

(** ** Package [net/http] as the program uses it *)

Module Http.

Definition isUpper (c : ascii) : bool :=
  let n := nat_of_ascii c in (65 <=? n)%nat && (n <=? 90)%nat.
Definition isLower (c : ascii) : bool :=
  let n := nat_of_ascii c in (97 <=? n)%nat && (n <=? 122)%nat.
Definition isDigit (c : ascii) : bool :=
  let n := nat_of_ascii c in (48 <=? n)%nat && (n <=? 57)%nat.
Definition toUpper (c : ascii) : ascii :=
  if isLower c then ascii_of_nat (nat_of_ascii c - 32) else c.
Definition toLower (c : ascii) : ascii :=
  if isUpper c then ascii_of_nat (nat_of_ascii c + 32) else c.

(** Bytes allowed in a header field name (RFC 7230 token). *)
Definition validHeaderFieldByte (c : ascii) : bool :=
  isUpper c || isLower c || isDigit c
  || existsb (Ascii.eqb c) (list_ascii_of_string "!#$%&'*+-.^_`|~").

Fixpoint allBytes (p : ascii -> bool) (s : string) : bool :=
  match s with
  | EmptyString => true
  | String c t => p c && allBytes p t
  end.

Fixpoint canonicalize (upper : bool) (s : string) : string :=
  match s with
  | EmptyString => EmptyString
  | String c t =>
      String (if upper then toUpper c else toLower c)
             (canonicalize (Ascii.eqb c "-"%char) t)
  end.

(** [textproto.CanonicalMIMEHeaderKey]: [x-request-id] and [X-Request-ID]
    both name the key [X-Request-Id]; a name with a byte that is not a
    token byte is left as it is. *)
Definition CanonicalMIMEHeaderKey (s : string) : string :=
  if allBytes validHeaderFieldByte s then canonicalize true s else s.

Definition Header_Get (h : Header) (key : string) : string :=
  match h !! CanonicalMIMEHeaderKey key with
  | Some (v :: _) => v
  | _ => EmptyString
  end.

Definition Header_Set (h : Header) (key value : string) : Header :=
  <[CanonicalMIMEHeaderKey key := [value]]> h.

(** The part of [*http.Request] the program reads.  The requests of the
    model are those whose path was sent without percent-escapes, for
    which the escaped path the mux matches on is [r.URL.Path] itself. *)
Record Request := {
  Method : string;
  Path : string;         (* [r.URL.Path] *)
  reqHeader : Header;    (* [r.Header], keys canonical as the server parsed them *)
  ctx : Context          (* [r.Context()] *)
}.

Definition WithContext (r : Request) (c : Context) : Request :=
  {| Method := Method r; Path := Path r; reqHeader := reqHeader r; ctx := c |}.

Definition WithPath (r : Request) (p : string) : Request :=
  {| Method := Method r; Path := p; reqHeader := reqHeader r; ctx := ctx r |}.

(** The two implementations of [http.ResponseWriter] at work: the server's
    own writer of the connection, and [main.responseWriter], which embeds
    another writer and keeps the last status passed to [WriteHeader] in a
    field of its own (cell [cell] of the world). *)
Inductive ResponseWriter :=
| connWriter
| responseWriter (inner : ResponseWriter) (cell : nat).

Definition Handler : Type := ResponseWriter -> Request -> Go unit.

(** What the three calls of the connection's writer do to its response. *)
Definition setHeader (key value : string) (p : Response) : Response :=
  {| header := Header_Set (header p) key value;
     committed := committed p; body := body p |}.

Definition commit (code : Z) (p : Response) : Response :=
  match committed p with
  | Some _ => p      (* superfluous WriteHeader: nothing goes to the client *)
  | None => {| header := header p; committed := Some (code, header p); body := body p |}
  end.

Definition appendBody (data : string) (p : Response) : Response :=
  let q := commit 200 p in
  {| header := header q; committed := committed q; body := body q +:+ data |}.

(** [w.Header().Set(key, value)]; [responseWriter] inherits [Header] from
    the writer it embeds. *)
Fixpoint SetHeader (w : ResponseWriter) (key value : string) : Go unit :=
  match w with
  | connWriter => modify (set_resp (setHeader key value))
  | responseWriter inner _ => SetHeader inner key value
  end.

(** The line the server logs when [WriteHeader] is called on a response
    whose status line is out already.  The server of [main] has no
    [ErrorLog], so the line goes to package [log]; its arguments are the
    function, the file and the line of the first caller outside
    [net/http]. *)
Definition superfluousEntry : LogEntry :=
  Printf "http: superfluous response.WriteHeader call from %s (%s:%d)"
    [LCaller "Function"; LCaller "File"; LCaller "Line"].

Definition superfluous (w : World) : list LogEntry :=
  match committed (resp w) with
  | Some _ => [superfluousEntry]
  | None => []
  end.

(** [WriteHeader] of the connection's writer, for the status codes of
    the program (final, and in range). *)
Definition writeHeader (code : Z) (w : World) : World :=
  set_resp (commit code) (set_logs (fun l => (l ++ superfluous w)%list) w).

(** [func (rw *responseWriter) WriteHeader(code int)] over the server's
    [WriteHeader]. *)
Fixpoint WriteHeader (w : ResponseWriter) (code : Z) : Go unit :=
  match w with
  | connWriter => modify (writeHeader code)
  | responseWriter inner cell =>
      modify (set_cells (fun m => <[cell := code]> m));;
      WriteHeader inner code
  end.

(** [w.Write(data)]: an implicit [WriteHeader(200)] of the connection's
    writer when nothing was committed yet; [responseWriter] inherits
    [Write], so its status field is not touched. *)
Fixpoint Write (w : ResponseWriter) (data : string) : Go unit :=
  match w with
  | connWriter => modify (set_resp (appendBody data))
  | responseWriter inner _ => Write inner data
  end.

Definition StatusOK : Z := 200.
Definition StatusMovedPermanently : Z := 301.
Definition StatusNotFound : Z := 404.
Definition StatusInternalServerError : Z := 500.

(** [http.Error(w, error, code)]. *)
Definition Error (w : ResponseWriter) (error : string) (code : Z) : Go unit :=
  SetHeader w "Content-Type" "text/plain; charset=utf-8";;
  SetHeader w "X-Content-Type-Options" "nosniff";;
  WriteHeader w code;;
  Write w (error +:+ nl).

Definition NotFound : Handler := fun w _ => Error w "404 page not found" StatusNotFound.

(** [http.Redirect]; the short HTML note that accompanies the redirect of
    a GET is not part of the model. *)
Definition Redirect (w : ResponseWriter) (r : Request) (url : string) (code : Z) : Go unit :=
  SetHeader w "Location" url;;
  WriteHeader w code.

End Http.

Export Http.

(** ** [http.ServeMux] and [http.StripPrefix] *)

Module Mux.

Fixpoint joinSlash (l : list string) : string :=
  match l with
  | [] => EmptyString
  | [x] => x
  | x :: rest => x +:+ "/" +:+ joinSlash rest
  end.

(** One element of a rooted path against the elements kept so far (last
    kept element first): empty and [.] elements vanish, [..] drops the
    element before it and is itself dropped at the root. *)
Definition cleanStep (kept : list string) (seg : string) : list string :=
  if eqs seg EmptyString || eqs seg "." then kept
  else if eqs seg ".." then tail kept
  else seg :: kept.

(** [path.Clean] on a rooted path. *)
Definition path_Clean (p : string) : string :=
  "/" +:+ joinSlash (rev (fold_left cleanStep (Split p slash) [])).

(** [cleanPath] of [net/http]: the canonical form of a request path, with
    its trailing slash kept. *)
Definition cleanPath (p : string) : string :=
  match p with
  | EmptyString => "/"
  | String c _ =>
      let p := if Ascii.eqb c slash then p else "/" +:+ p in
      let np := path_Clean p in
      if HasSuffix p "/" && negb (eqs np "/") then np +:+ "/" else np
  end.

(** Patterns are registered without method, host or wildcard: one ending
    in a slash names a subtree, any other one a single path. *)
Definition ServeMux : Type := list (string * Handler).

Definition patternMatches (pattern path : string) : bool :=
  if HasSuffix pattern "/" then HasPrefix path pattern else eqs pattern path.

(** The most specific registered pattern that matches: the longest. *)
Fixpoint mux_match (mux : ServeMux) (path : string) : option (string * Handler) :=
  match mux with
  | [] => None
  | (pat, h) :: rest =>
      let r := mux_match rest path in
      if patternMatches pat path then
        match r with
        | Some (pat', _) =>
            if (String.length pat <? String.length pat')%nat then r else Some (pat, h)
        | None => Some (pat, h)
        end
      else r
  end.

Definition registered (mux : ServeMux) (pattern : string) : bool :=
  existsb (fun e => eqs (fst e) pattern) mux.

(** [ServeMux.ServeHTTP]: a path that is registered only with a
    trailing slash, and a path that is not in canonical form (CONNECT
    requests apart), are answered with a redirect and reach no handler. *)
Definition ServeHTTP (mux : ServeMux) : Handler := fun w r =>
  let connect := eqs (Method r) "CONNECT" in
  let path := if connect then Path r else cleanPath (Path r) in
  let n := mux_match mux path in
  let exact := match n with Some (pat, _) => eqs pat path | None => false end in
  if negb exact && negb (HasSuffix path "/") && registered mux (path +:+ "/")
  then Redirect w r (cleanPath (Path r) +:+ "/") StatusMovedPermanently
  else if negb (eqs path (Path r))
  then Redirect w r path StatusMovedPermanently
  else match n with
       | Some (_, h) => h w r
       | None => NotFound w r
       end.

(** [http.StripPrefix(prefix, h)] for a non-empty prefix. *)
Definition StripPrefix (prefix : string) (h : Handler) : Handler := fun w r =>
  let p := TrimPrefix (Path r) prefix in
  if (String.length p <? String.length (Path r))%nat
  then h w (WithPath r p)
  else NotFound w r.

End Mux.

Export Mux.

(** ** Library calls of [main.go] outside [net/http] *)

(** [parts[i]] on a slice of strings: the run-time bounds check. *)
Definition index (parts : list string) (i : nat) : Go string :=
  match parts !! i with
  | Some s => mret s
  | None =>
      panic ("runtime error: index out of range [" +:+ pretty i
             +:+ "] with length " +:+ pretty (List.length parts))
  end.

(** Year, month and day of a day number counted from 1970-01-01. *)
Definition civil (days : Z) : Z * Z * Z :=
  let z := days + 719468 in
  let era := z / 146097 in
  let doe := z - era * 146097 in
  let yoe := (doe - doe / 1460 + doe / 36524 - doe / 146096) / 365 in
  let doy := doe - (365 * yoe + yoe / 4 - yoe / 100) in
  let mp := (5 * doy + 2) / 153 in
  let d := doy - (153 * mp + 2) / 5 + 1 in
  let m := if mp <? 10 then mp + 3 else mp - 9 in
  let y := yoe + era * 400 in
  (if m <=? 2 then y + 1 else y, m, d).

Definition digit (n : Z) : string :=
  String (ascii_of_nat (48 + Z.to_nat (n mod 10))) EmptyString.
Definition pad2 (n : Z) : string := digit (n / 10) +:+ digit n.
Definition pad4 (n : Z) : string := pad2 (n / 100) +:+ pad2 n.

(** [time.Time.UTC().Format(time.RFC3339)] of an instant given in
    nanoseconds since the Unix epoch (years 0 to 9999). *)
Definition RFC3339 (ns : Z) : string :=
  let secs := ns / Second in
  let rem := secs mod 86400 in
  let '(y, m, d) := civil (secs / 86400) in
  pad4 y +:+ "-" +:+ pad2 m +:+ "-" +:+ pad2 d +:+ "T"
  +:+ pad2 (rem / 3600) +:+ ":" +:+ pad2 (rem mod 3600 / 60) +:+ ":" +:+ pad2 (rem mod 60)
  +:+ "Z".

Definition log_Println (s : string) : Go unit := log_Printf s [].

(** The first thing that ends a context, and when: a call of a cancel
    function ([false]) or a deadline ([true]).  A context keeps the error
    it ended with; of two events at the same instant the one of the
    ancestor counts. *)
Definition earlier (a b : option (Z * bool)) : option (Z * bool) :=
  match a, b with
  | Some (x, _), Some (y, _) => if y <? x then b else a
  | Some _, None => a
  | None, _ => b
  end.

Fixpoint ending (c : Context) : option (Z * bool) :=
  match c with
  | Background => None
  | WithCancel p a => earlier (ending p) ((fun t => (t, false)) <$> a)
  | WithDeadline p d => earlier (ending p) (Some (d, true))
  | WithValue p _ _ => ending p
  end.

(** [c.Err()] at instant [t]. *)
Definition ctxErr (c : Context) (t : Z) : option string :=
  if Done c t then
    Some (match ending c with
          | Some (_, true) => "context deadline exceeded"
          | _ => "context canceled"
          end)
  else None.

(** The error, if any, of a docker client call under context [c]: the
    one the client makes of the context's error when the context is
    already done, otherwise the daemon's while it cannot be reached. *)
Definition callErr (c : Context) (w : World) : option string :=
  match ctxErr c (clock w) with
  | Some e => Some (requestErr (engine w) e)
  | None => daemonErr (engine w)
  end.

(** [dockerClient.Ping(ctx)]: the error. *)
Definition client_Ping (c : Context) : Go (option string) := gets (callErr c).

(** [dockerClient.Info(ctx)]: the reply rendered as JSON, or the error. *)
Definition client_Info (c : Context) : Go (string + string) :=
  gets (fun w => match callErr c w with
                 | Some e => inr e
                 | None => inl (infoJSON (engine w))
                 end).

(** ** [main.go] *)

(** The handler values of package [kibutsu/api/handlers], which [main]
    only mounts: parameters of the server. *)
Record ContainerHandler := {
  ListContainers : Handler; GetContainer : Handler; StartContainer : Handler;
  StopContainer : Handler; RestartContainer : Handler;
  GetContainerLogs : Handler; GetContainerStats : Handler
}.

Record ImageHandler := {
  ListImages : Handler; PullImage : Handler; GetSystemInfo : Handler;
  GetSystemVersion : Handler; GetDiskUsage : Handler;
  GetImageHistory : Handler; GetImage : Handler; RemoveImage : Handler
}.

Record ComposeHandler := {
  ListProjects : Handler; GetProject : Handler; ProjectUp : Handler;
  ProjectDown : Handler; GetProjectLogs : Handler;
  ListServices : Handler; ScaleService : Handler
}.

Definition MethodGet : string := "GET".
Definition MethodPost : string := "POST".
Definition MethodDelete : string := "DELETE".

(** *** Middleware *)

Definition requestIDMiddleware (next : Handler) : Handler := fun w r =>
  let requestID := Header_Get (reqHeader r) "X-Request-ID" in
  requestID ← (if eqs requestID EmptyString then uuid_New else mret requestID);
  let ctx' := WithValue (ctx r) requestIDKey requestID in
  SetHeader w "X-Request-ID" requestID;;
  next w (WithContext r ctx').

Definition loggingMiddleware (next : Handler) : Handler := fun w r =>
  start ← time_Now;
  cell ← gets (fun s => List.length (cells s));
  modify (set_cells (fun m => (m ++ [StatusOK])%list));;
  let rw := responseWriter w cell in
  next rw r;;
  path ← gets (fun s => default (Path r) (urlPath s));
  status ← gets (fun s => default 0 (cells s !! cell));
  now ← time_Now;
  log_Printf "[%s] %s %s %d %s"
    [LValue (Value (ctx r) requestIDKey); LStr (Method r); LStr path;
     LInt status; LDuration (now - start)].

Definition recoveryMiddleware (next : Handler) : Handler := fun w r =>
  deferRecover (next w r) (fun err =>
    log_Printf ("[PANIC] %v" +:+ nl +:+ "%s") [LStr err; LStack];;
    Error w "Internal Server Error" StatusInternalServerError).

Definition timeoutMiddleware (timeout : Z) (next : Handler) : Handler := fun w r =>
  now ← time_Now;
  let ctx' := WithTimeout (ctx r) now timeout in
  next w (WithContext r ctx').

Definition corsMiddleware (next : Handler) : Handler := fun w r =>
  SetHeader w "Access-Control-Allow-Origin" "http://localhost:5173";;
  SetHeader w "Access-Control-Allow-Methods" "GET, POST, PUT, DELETE, OPTIONS";;
  SetHeader w "Access-Control-Allow-Headers" "Content-Type, X-Request-ID";;
  if eqs (Method r) "OPTIONS" then WriteHeader w StatusOK
  else next w r.

(** *** Handlers of [App] *)

(** [json.NewEncoder(w).Encode(response)] of a [HealthResponse]. *)
Definition encodeHealthResponse (status timestamp : string) : string :=
  "{" +:+ dq +:+ "status" +:+ dq +:+ ":" +:+ dq +:+ status +:+ dq +:+ ","
  +:+ dq +:+ "timestamp" +:+ dq +:+ ":" +:+ dq +:+ timestamp +:+ dq +:+ "}" +:+ nl.

Definition healthHandler : Handler := fun w r =>
  now ← time_Now;
  SetHeader w "Content-Type" "application/json";;
  Write w (encodeHealthResponse "healthy" (RFC3339 now)).

Definition dockerInfoHandler : Handler := fun w r =>
  now ← time_Now;
  let ctx' := WithTimeout (ctx r) now (5 * Second) in
  res ← client_Info ctx';
  match res with
  | inr err =>
      Error w ("Failed to get Docker info: " +:+ err) StatusInternalServerError
  | inl info =>
      SetHeader w "Content-Type" "application/json";;
      Write w (info +:+ nl)
  end.

(** *** Route handlers registered by [main] *)

Section Routes.

Variable containerHandler : ContainerHandler.
Variable imageHandler : ImageHandler.
Variable composeHandler : ComposeHandler.
Variable fileServer : Handler.

Definition containersRoute : Handler := fun w r =>
  let path := TrimPrefix (Path r) "/containers/" in
  let parts := Split path slash in
  if (List.length parts <? 2)%nat then GetContainer containerHandler w r
  else
    action ← index parts 1;
    if eqs action "start" then StartContainer containerHandler w r
    else if eqs action "stop" then StopContainer containerHandler w r
    else if eqs action "restart" then RestartContainer containerHandler w r
    else if eqs action "logs" then GetContainerLogs containerHandler w r
    else if eqs action "stats" then GetContainerStats containerHandler w r
    else NotFound w r.

Definition imagesRoute : Handler := fun w r =>
  if HasSuffix (Path r) "/history" then GetImageHistory imageHandler w r
  else if eqs (Method r) MethodGet then GetImage imageHandler w r
  else if eqs (Method r) MethodDelete then RemoveImage imageHandler w r
  else NotFound w r.

(** The handler of [/compose/projects/].  The two early returns are taken
    only by GET requests; every other request goes on to [parts[1]]. *)
Definition composeRoute : Handler := fun w r =>
  let path := TrimPrefix (Path r) "/compose/projects/" in
  let parts := Split path slash in
  noProject ← (if eqs path EmptyString then mret true
               else p0 ← index parts 0; mret (eqs p0 EmptyString));
  if noProject && eqs (Method r) MethodGet then ListProjects composeHandler w r
  else if (List.length parts =? 1)%nat && eqs (Method r) MethodGet
  then GetProject composeHandler w r
  else
    projectName ← index parts 0;
    action ← index parts 1;
    log_Printf "Project: %s, Action: %s" [LStr projectName; LStr action];;
    if eqs action "up" then
      if eqs (Method r) MethodPost then ProjectUp composeHandler w r
      else NotFound w r
    else if eqs action "down" then
      if eqs (Method r) MethodPost then ProjectDown composeHandler w r
      else NotFound w r
    else if eqs action "logs" then
      if eqs (Method r) MethodGet then GetProjectLogs composeHandler w r
      else NotFound w r
    else if eqs action "services" then
      if (List.length parts =? 2)%nat && eqs (Method r) MethodGet
      then ListServices composeHandler w r
      else if (List.length parts =? 4)%nat then
        p3 ← index parts 3;
        if eqs p3 "scale" && eqs (Method r) MethodPost
        then ScaleService composeHandler w r
        else NotFound w r
      else NotFound w r
    else NotFound w r.

(** The handler of [/]: the file server sees the path [/] for everything
    but [/] and the assets.  The assignment to [r.URL.Path] is made on
    the URL the request shares with the one [loggingMiddleware] holds, so
    the access line written afterwards names [/] too. *)
Definition staticRoute : Handler := fun w r =>
  if negb (eqs (Path r) "/") && negb (HasPrefix (Path r) "/assets/")
  then
    modify (set_urlPath "/");;
    fileServer w (WithPath r "/")
  else fileServer w r.

Definition apiRouter : ServeMux :=
  [ ("/docker/info", dockerInfoHandler);
    ("/containers", ListContainers containerHandler);
    ("/containers/", containersRoute);
    ("/images", ListImages imageHandler);
    ("/images/pull", PullImage imageHandler);
    ("/system/info", GetSystemInfo imageHandler);
    ("/system/version", GetSystemVersion imageHandler);
    ("/system/disk", GetDiskUsage imageHandler);
    ("/images/", imagesRoute);
    ("/compose/projects/", composeRoute) ].

Definition mux : ServeMux :=
  [ ("/health", healthHandler);
    ("/api/", StripPrefix "/api" (ServeHTTP apiRouter));
    ("/", staticRoute) ].

(** The middleware chain of [main] around a handler, and the handler the
    server is started with. *)
Definition chain (h : Handler) : Handler :=
  corsMiddleware
    (requestIDMiddleware
      (recoveryMiddleware
        (loggingMiddleware
          (timeoutMiddleware (30 * Second) h)))).

Definition handler : Handler := chain (ServeHTTP mux).

End Routes.

(** *** Start-up of [main] *)

Inductive Startup :=
| Exited (code : Z)                (* [os.Exit(code)]: the process is gone *)
| Listening (addr : string).       (* the goroutine of [ListenAndServe] runs *)

(** [log.Fatalf] where nothing follows it: the line, then [os.Exit(1)]. *)
Definition log_Fatalf (fmt : string) (a : list LogArg) : Go Startup :=
  log_Printf fmt a;;
  mret (Exited 1).

(** [main] up to the point where the server listens; [newClientErr] is the
    error of [client.NewClientWithOpts], which reads the environment. *)
Definition main (newClientErr : option string) : Go Startup :=
  log_Println "Starting Docker management service...";;
  now ← time_Now;
  let ctx' := WithTimeout Background now (10 * Second) in
  match newClientErr with
  | Some err => log_Fatalf "Failed to create Docker client: %v" [LStr err]
  | None =>
      pingErr ← client_Ping ctx';
      match pingErr with
      | Some err => log_Fatalf "Failed to connect to Docker daemon: %v" [LStr err]
      | None =>
          log_Println "Successfully connected to Docker daemon";;
          log_Printf "Server listening on %s" [LStr ":8080"];;
          mret (Listening ":8080")
      end
  end.

(** ** What the middleware does to a request and to the world, named *)

(** The status line that went on the wire, if any. *)
Definition wireStatus (w : World) : option Z := fst <$> committed (resp w).

(** [http.Error] on the connection's response. *)
Definition errorResponse (error : string) (code : Z) (p : Response) : Response :=
  appendBody (error +:+ nl)
    (commit code
      (setHeader "X-Content-Type-Options" "nosniff"
        (setHeader "Content-Type" "text/plain; charset=utf-8" p))).

(** [http.Error] on the connection: the response, and the server's line in
    the log when the status line was out already. *)
Definition failed (error : string) (code : Z) (w : World) : World :=
  set_resp (errorResponse error code) (set_logs (fun l => (l ++ superfluous w)%list) w).

(** The log entry and the world left by the deferred function of
    [recoveryMiddleware] for a panic with value [v]. *)
Definition panicEntry (v : string) : LogEntry :=
  Printf ("[PANIC] %v" +:+ nl +:+ "%s") [LStr v; LStack].

Definition recovered (v : string) (w : World) : World :=
  set_resp (errorResponse "Internal Server Error" StatusInternalServerError)
    (set_logs (fun l => (l ++ panicEntry v :: superfluous w)%list) w).

(** The three headers of [corsMiddleware]. *)
Definition corsHeaders (p : Response) : Response :=
  setHeader "Access-Control-Allow-Headers" "Content-Type, X-Request-ID"
    (setHeader "Access-Control-Allow-Methods" "GET, POST, PUT, DELETE, OPTIONS"
      (setHeader "Access-Control-Allow-Origin" "http://localhost:5173" p)).

(** The request id of [r] in world [w], and the world once it is chosen
    and set on the response. *)
Definition incomingID (r : Request) : string := Header_Get (reqHeader r) "X-Request-ID".

Definition requestIDOf (r : Request) (w : World) : string :=
  if eqs (incomingID r) EmptyString then hd nilUUID (uuids w) else incomingID r.

Definition afterRequestID (r : Request) (w : World) : World :=
  set_resp (setHeader "X-Request-ID" (requestIDOf r w))
    (set_uuids (fun u => if eqs (incomingID r) EmptyString then tail u else u) w).

(** The line of [loggingMiddleware]. *)
Definition accessEntry (r : Request) (status elapsed : Z) : LogEntry :=
  Printf "[%s] %s %s %d %s"
    [LValue (Value (ctx r) requestIDKey); LStr (Method r); LStr (Path r);
     LInt status; LDuration elapsed].

(** The request as [loggingMiddleware] reads it once the handler has
    returned and left the world [s]: with the path assigned to the shared
    URL, if one was. *)
Definition seen (r : Request) (s : World) : Request :=
  WithPath r (default (Path r) (urlPath s)).

(** What the innermost handler of [chain] is called with: the request as
    [requestIDMiddleware] and then [timeoutMiddleware] pass it on, the
    world on entry, and the writer of [loggingMiddleware]. *)
Definition identified (r : Request) (w : World) : Request :=
  WithContext r (WithValue (ctx r) requestIDKey (requestIDOf r w)).

Definition delivered (r : Request) (w : World) : Request :=
  WithContext r (WithTimeout (ctx (identified r w)) (clock w) (30 * Second)).

Definition entered (r : Request) (w : World) : World :=
  set_cells (fun m => (m ++ [StatusOK])%list) (afterRequestID r (set_resp corsHeaders w)).

Definition chainWriter (w : World) : ResponseWriter :=
  responseWriter connWriter (List.length (cells w)).

(** The response of [healthHandler]. *)
Definition healthResponse (now : Z) (p : Response) : Response :=
  appendBody (encodeHealthResponse "healthy" (RFC3339 now))
    (setHeader "Content-Type" "application/json" p).

Definition healthBody (w : World) : string :=
  encodeHealthResponse "healthy" (RFC3339 (clock w)).

(** The value of the run-time panic of [parts[1]] on a one-element slice. *)
Definition outOfRange : string := "runtime error: index out of range [1] with length 1".

(** ** The routing table of the compose endpoints as it is documented

    The rows are read in order; the first that applies decides. *)

Inductive Target :=
| ListProjectsT | GetProjectT | ProjectUpT | ProjectDownT
| GetProjectLogsT | ListServicesT | ScaleServiceT | NotFoundT.

Definition invoke (ch : ComposeHandler) (t : Target) : Handler :=
  match t with
  | ListProjectsT => ListProjects ch
  | GetProjectT => GetProject ch
  | ProjectUpT => ProjectUp ch
  | ProjectDownT => ProjectDown ch
  | GetProjectLogsT => GetProjectLogs ch
  | ListServicesT => ListServices ch
  | ScaleServiceT => ScaleService ch
  | NotFoundT => NotFound
  end.

Definition routeTable (method : string) (parts : list string) : Target :=
  let get := eqs method MethodGet in
  let post := eqs method MethodPost in
  match parts with
  | [] => NotFoundT
  | project :: rest =>
      if get && eqs project EmptyString then ListProjectsT
      else match rest with
           | [] => if get then GetProjectT else NotFoundT
           | action :: more =>
               if eqs action "up" then (if post then ProjectUpT else NotFoundT)
               else if eqs action "down" then (if post then ProjectDownT else NotFoundT)
               else if eqs action "logs" then (if get then GetProjectLogsT else NotFoundT)
               else if eqs action "services" then
                 match more with
                 | [] => if get then ListServicesT else NotFoundT
                 | [_; last] => if eqs last "scale" && post then ScaleServiceT else NotFoundT
                 | _ => NotFoundT
                 end
               else NotFoundT
           end
  end.

(** What the route handler logs before it dispatches on the action. *)
Definition routeLog (method : string) (parts : list string) : list LogEntry :=
  match parts with
  | project :: action :: _ =>
      if eqs method MethodGet && eqs project EmptyString then []
      else [Printf "Project: %s, Action: %s" [LStr project; LStr action]]
  | _ => []
  end.

(** ** Stand-ins for package [handlers], and sample requests and worlds *)

(** A handler that answers with its own name. *)
Definition probe (name : string) : Handler := fun w _ => Write w name.

(** A handler that starts its response and then panics. *)
Definition boom : Handler := fun w _ => Write w "partial";; panic "boom".

Definition probeContainers : ContainerHandler :=
  {| ListContainers := probe "ListContainers"; GetContainer := probe "GetContainer";
     StartContainer := probe "StartContainer"; StopContainer := probe "StopContainer";
     RestartContainer := probe "RestartContainer";
     GetContainerLogs := probe "GetContainerLogs";
     GetContainerStats := probe "GetContainerStats" |}.

Definition probeImages : ImageHandler :=
  {| ListImages := probe "ListImages"; PullImage := probe "PullImage";
     GetSystemInfo := probe "GetSystemInfo"; GetSystemVersion := probe "GetSystemVersion";
     GetDiskUsage := probe "GetDiskUsage"; GetImageHistory := probe "GetImageHistory";
     GetImage := probe "GetImage"; RemoveImage := probe "RemoveImage" |}.

Definition probeCompose : ComposeHandler :=
  {| ListProjects := probe "ListProjects"; GetProject := probe "GetProject";
     ProjectUp := probe "ProjectUp"; ProjectDown := probe "ProjectDown";
     GetProjectLogs := probe "GetProjectLogs"; ListServices := probe "ListServices";
     ScaleService := probe "ScaleService" |}.

(** The compose handlers with a [ListProjects] that panics half-way. *)
Definition boomCompose : ComposeHandler :=
  {| ListProjects := boom; GetProject := probe "GetProject";
     ProjectUp := probe "ProjectUp"; ProjectDown := probe "ProjectDown";
     GetProjectLogs := probe "GetProjectLogs"; ListServices := probe "ListServices";
     ScaleService := probe "ScaleService" |}.

Definition probeServer : Handler :=
  handler probeContainers probeImages probeCompose (probe "static").

Definition boomServer : Handler :=
  handler probeContainers probeImages boomCompose (probe "static").

Definition req0 (m p : string) : Request :=
  {| Method := m; Path := p; reqHeader := ∅; ctx := WithCancel Background None |}.

Definition withRequestID (r : Request) (id : string) : Request :=
  {| Method := Method r; Path := Path r;
     reqHeader := Header_Set (reqHeader r) "X-Request-ID" id; ctx := ctx r |}.

(** The text of a [*url.Error] of a GET on the daemon's socket. *)
Definition sampleRequestErr (e : string) : string :=
  "Get " +:+ dq +:+ "http://%2Fvar%2Frun%2Fdocker.sock/v1.47/info" +:+ dq +:+ ": " +:+ e.

Definition world0 : World :=
  {| clock := 1700000000 * Second; logs := [];
     uuids := ["6ba7b810-9dad-41d1-80b4-00c04fd430c8"];
     engine := {| daemonErr := None; infoJSON := "{}"; requestErr := sampleRequestErr |};
     resp := emptyResponse; cells := []; urlPath := None |}.

(** [world0] with a daemon that cannot be reached. *)
Definition worldDown : World :=
  {| clock := clock world0; logs := []; uuids := uuids world0;
     engine := {| daemonErr := Some "Cannot connect to the Docker daemon";
                  infoJSON := EmptyString; requestErr := sampleRequestErr |};
     resp := emptyResponse; cells := []; urlPath := None |}.

(** ** Further names for the statements of Part II *)

(** The request [r] sent with method [m]. *)
Definition WithMethod (r : Request) (m : string) : Request :=
  {| Method := m; Path := Path r; reqHeader := reqHeader r; ctx := ctx r |}.

(** The handlers [containersRoute] can hand a request to. *)
Definition containerTargets (ch : ContainerHandler) : list Handler :=
  [GetContainer ch; StartContainer ch; StopContainer ch; RestartContainer ch;
   GetContainerLogs ch; GetContainerStats ch; NotFound].

(** A handler that fails after it has started to answer. *)
Definition lateFailure (data error : string) (code : Z) : Handler := fun w _ =>
  Write w data;;
  Error w error code.

(** What the success branch of [dockerInfoHandler] does to the
    connection's response. *)
Definition infoResponse (info : string) (p : Response) : Response :=
  appendBody (info +:+ nl) (setHeader "Content-Type" "application/json" p).

(** ** The project lifecycle orchestrator *)

Module Orchestrator.

Local Open Scope list_scope.
Local Open Scope nat_scope.

(** Modelled from the spec: the resources of the container engine and
    their labels.  Package [kibutsu/api/handlers] is not part of the
    sources at hand; data model and operations follow sections 3, 4.2
    and 6 of the specification.  Every engine resource carries the label
    set [{project, service, index}], [service] absent on project-level
    resources, [index] absent or unparseable on orphans. *)
Inductive Kind := Container | Network | Volume.

(** Modelled from the spec: the lifecycle status of a ServiceInstance. *)
Inductive Lifecycle := created | running | stopped | removing.

(** Modelled from the spec: an engine resource with its label set. *)
Record Resource := {
  rid : string;              (* engine-assigned id *)
  kind : Kind;
  project : string;
  service : option string;
  index : option nat;
  status : Lifecycle;
  fingerprint : string       (* hash of image, env, mounts and ports *)
}.

#[global] Instance Kind_eq_dec : EqDecision Kind.
Proof. solve_decision. Defined.

#[global] Instance Lifecycle_eq_dec : EqDecision Lifecycle.
Proof. solve_decision. Defined.

#[global] Instance Resource_eq_dec : EqDecision Resource.
Proof. solve_decision. Defined.

(** Modelled from the spec: the engine behind the Engine Gateway, the
    single source of truth.  [refused] lists the ids of the resources the
    engine will not remove, which is how a removal fails. *)
Record EngineState := {
  resources : list Resource;
  refused : list string;
  nextId : nat
}.

(** Modelled from the spec: the typed errors of section 7 that reject an
    operation before any change. *)
Inductive Error :=
| NotFoundError | ProjectBusyError | SpecUnavailableError | EngineUnavailableError.

(** Modelled from the spec: the structured result of a mutating operation:
    rejected before any change, or the resources it affected and those on
    which an engine call failed. *)
Record OperationResult := {
  rejected : option Error;
  affected : list Resource;
  failed : list Resource
}.

(** Modelled from the spec: the result of an operation that had nothing
    to do. *)
Definition applied : OperationResult :=
  {| rejected := None; affected := []; failed := [] |}.

(** Modelled from the spec: fully applied. *)
Definition success (r : OperationResult) : Prop :=
  rejected r = None /\ failed r = [].

(** Modelled from the spec: the engine fails the removal of [r]. *)
Definition stuck (e : EngineState) (r : Resource) : Prop := rid r ∈ refused e.

(** Modelled from the spec: a network is attached while a container of
    its project exists. *)
Definition attached (e : EngineState) (n : Resource) : Prop :=
  Exists (fun c => kind c = Container /\ project c = project n) (resources e).

(** Modelled from the spec: the removal of [r] succeeds. *)
Definition removable (e : EngineState) (r : Resource) : Prop :=
  ~ stuck e r /\ (kind r = Network -> ~ attached e r).

#[global] Instance removable_dec e r : Decision (removable e r).
Proof. unfold removable, stuck, attached. apply _. Defined.

(** Modelled from the spec: the engine without the resource [r]. *)
Definition delete (r : Resource) (e : EngineState) : EngineState :=
  {| resources := filter (fun x => x <> r) (resources e);
     refused := refused e; nextId := nextId e |}.

(** Modelled from the spec: the gateway's removal of one resource (for an
    instance: stop, then remove).  [None] is a failed call, which leaves
    the engine as it was; a network cannot be removed while attached
    containers exist. *)
Definition remove (r : Resource) (e : EngineState) : option EngineState :=
  if decide (removable e r) then Some (delete r e) else None.

(** Modelled from the spec: the two ways a sub-operation is recorded in
    the result. *)
Definition noteAffected (v : Resource) (res : OperationResult) : OperationResult :=
  {| rejected := rejected res; affected := affected res ++ [v]; failed := failed res |}.

Definition noteFailed (v : Resource) (res : OperationResult) : OperationResult :=
  {| rejected := rejected res; affected := affected res; failed := failed res ++ [v] |}.

(** Modelled from the spec: best-effort removal of a list of resources:
    a failure is recorded and the call proceeds through the rest. *)
Fixpoint removeEach (victims : list Resource) (e : EngineState) (res : OperationResult)
  : EngineState * OperationResult :=
  match victims with
  | [] => (e, res)
  | v :: vs =>
      match remove v e with
      | Some e' => removeEach vs e' (noteAffected v res)
      | None => removeEach vs e (noteFailed v res)
      end
  end.

(** Modelled from the spec: the label query of the gateway: the resources
    of kind [k] that carry the project label [p]. *)
Definition labeled (p : string) (k : Kind) (e : EngineState) : list Resource :=
  filter (fun r => kind r = k /\ project r = p) (resources e).

(** Modelled from the spec: [Down(projectName, keepVolumes)] of section
    4.2: every instance labeled to the project, whatever its service, then
    the project network, then the volumes unless [keepVolumes]; the
    project lock of section 4.3 is taken to be free. *)
Definition Down (p : string) (keepVolumes : bool) (e : EngineState)
  : EngineState * OperationResult :=
  let '(e1, r1) := removeEach (labeled p Container e) e applied in
  let '(e2, r2) := removeEach (labeled p Network e1) e1 r1 in
  if keepVolumes then (e2, r2)
  else removeEach (labeled p Volume e2) e2 r2.

(** Modelled from the spec: the State Reader's instances of a service:
    the containers with the project and service labels and a parseable
    index (orphans are reported apart and take no part in scaling). *)
Definition instances (p s : string) (e : EngineState) : list Resource :=
  filter (fun r => kind r = Container /\ project r = p /\ service r = Some s
                   /\ is_Some (index r)) (resources e).

(** Modelled from the spec: the instance index of an instance. *)
Definition idx (r : Resource) : nat := default 0 (index r).

(** Modelled from the spec: the order of removal, highest index first. *)
Definition higherFirst (a b : Resource) : Prop := idx b <= idx a.

#[global] Instance higherFirst_dec a b : Decision (higherFirst a b).
Proof. unfold higherFirst. apply _. Defined.

(** Modelled from the spec: gap-filling, the lowest index not in use. *)
Definition lowestFree (used : list nat) : nat :=
  default (List.length used)
    (List.find (fun n => bool_decide (n ∉ used)) (seq 0 (S (List.length used)))).

(** Modelled from the spec: the creation of one more instance of a
    service from the spec recorded on a live instance, at the index the
    gap-filling rule gives. *)
Definition create (p s : string) (template : Resource) (e : EngineState) : EngineState :=
  let i := lowestFree (idx <$> instances p s e) in
  {| resources := resources e ++
       [{| rid := "c" +:+ pretty (nextId e); kind := Container; project := p;
           service := Some s; index := Some i; status := running;
           fingerprint := fingerprint template |}];
     refused := refused e; nextId := S (nextId e) |}.

(** Modelled from the spec: [n] creations in a row. *)
Fixpoint createEach (n : nat) (p s : string) (template : Resource)
    (e : EngineState) (res : OperationResult) : EngineState * OperationResult :=
  match n with
  | O => (e, res)
  | S n' =>
      let e' := create p s template e in
      match last (resources e') with
      | Some c => createEach n' p s template e' (noteAffected c res)
      | None => (e', res)
      end
  end.

(** Modelled from the spec: [Scale(projectName, serviceName,
    desiredReplicas)] of section 4.2, on the live instance count [N]:
    fewer wanted, the [N - desiredReplicas] instances of highest index
    are removed; more wanted, instances are created, which needs a live
    instance to take the spec from; as many wanted, nothing is done. *)
Definition Scale (p s : string) (desiredReplicas : nat) (e : EngineState)
  : EngineState * OperationResult :=
  let live := instances p s e in
  let N := List.length live in
  if decide (desiredReplicas < N) then
    removeEach (take (N - desiredReplicas) (merge_sort higherFirst live)) e applied
  else if decide (N < desiredReplicas) then
    match live with
    | [] => (e, {| rejected := Some SpecUnavailableError; affected := []; failed := [] |})
    | template :: _ => createEach (desiredReplicas - N) p s template e applied
    end
  else (e, applied).

(** *** The effect of a removal phase, named *)

(** The engine and the result after the best-effort removal of [vs], all
    of one kind, from [e]. *)
Definition swept (vs : list Resource) (e : EngineState) : EngineState :=
  {| resources := filter (fun x => ~ (x ∈ vs /\ removable e x)) (resources e);
     refused := refused e; nextId := nextId e |}.

Definition noted (vs : list Resource) (e : EngineState) (res : OperationResult)
  : OperationResult :=
  {| rejected := rejected res;
     affected := affected res ++ filter (removable e) vs;
     failed := failed res ++ filter (fun v => ~ removable e v) vs |}.

(** [settled k p e]: the engine lets go of no resource of kind [k] that is
    labeled to [p]; removing them again changes nothing. *)
Definition settled (k : Kind) (p : string) (e : EngineState) : Prop :=
  forall x, x ∈ resources e -> kind x = k -> project x = p -> ~ removable e x.

Definition afterContainers (p : string) (e : EngineState) : EngineState :=
  swept (labeled p Container e) e.

Definition afterNetworks (p : string) (e : EngineState) : EngineState :=
  swept (labeled p Network (afterContainers p e)) (afterContainers p e).

Definition afterVolumes (p : string) (e : EngineState) : EngineState :=
  swept (labeled p Volume (afterNetworks p e)) (afterNetworks p e).

Definition resultNetworks (p : string) (e : EngineState) : OperationResult :=
  noted (labeled p Network (afterContainers p e)) (afterContainers p e)
    (noted (labeled p Container e) e applied).

(** *** The example of the specification: project [demo], service [web] *)

Definition instance (i : nat) (id : string) : Resource :=
  {| rid := id; kind := Container; project := "demo"; service := Some "web";
     index := Some i; status := running; fingerprint := "nginx:latest" |}.

Definition demoNetwork : Resource :=
  {| rid := "n1"; kind := Network; project := "demo"; service := None;
     index := None; status := created; fingerprint := EmptyString |}.

Definition demoVolume : Resource :=
  {| rid := "v1"; kind := Volume; project := "demo"; service := None;
     index := None; status := created; fingerprint := EmptyString |}.

Definition demoEngine : EngineState :=
  {| resources := [instance 2 "c2"; instance 0 "c0"; demoNetwork; instance 3 "c3";
                   demoVolume; instance 1 "c1"];
     refused := []; nextId := 7 |}.

End Orchestrator.

(** ** The dashboard stores ([frontend/src/lib/stores/docker.ts]) *)

Module Stores.

Local Open Scope list_scope.

(** [DockerError] of [types/docker]; [timestamp] is a [Date], in
    milliseconds. *)
Record DockerError := { message : string; code : string; timestamp : Z }.

(** [StoreState<T>]; [lastUpdated] is [Date | null]. *)
Record StoreState (T : Type) := {
  data : T;
  loading : bool;
  lastUpdated : option Z
}.

Arguments data {T} _.
Arguments loading {T} _.
Arguments lastUpdated {T} _.

(** A value thrown by the fetch function: an [Error] instance with its
    message, or anything else. *)
Inductive Thrown :=
| ErrorInstance (message : string)
| NotAnError.

(** How the promise returned by [fetchFn] settles. *)
Inductive Settled (T : Type) :=
| Resolved (data : T)
| Rejected (error : Thrown).

Arguments Resolved {T} data.
Arguments Rejected {T} error.

(** *** [errorStore] *)

(** [errors => [error, ...errors].slice(0, 10)] *)
Definition add (error : DockerError) (errors : list DockerError) : list DockerError :=
  take 10 (error :: errors).

(** [() => []] *)
Definition clear (errors : list DockerError) : list DockerError := [].

Inductive ErrorOp :=
| Add (error : DockerError)
| Clear.

Definition applyOp (errors : list DockerError) (op : ErrorOp) : list DockerError :=
  match op with
  | Add error => add error errors
  | Clear => clear errors
  end.

(** The error store after a sequence of calls, from its initial value [[]]. *)
Definition errorsAfter (ops : list ErrorOp) : list DockerError :=
  fold_left applyOp ops [].

(** Every error added since the last [clear], newest first. *)
Definition sinceClear (acc : list DockerError) (op : ErrorOp) : list DockerError :=
  match op with
  | Add error => error :: acc
  | Clear => []
  end.

Definition addedSinceClear (ops : list ErrorOp) : list DockerError :=
  fold_left sinceClear ops [].

(** *** [createLoadingStore] *)

Section LoadingStore.

Context {T : Type}.

(** The state a loading store works on: its own writable and the error
    store that all loading stores report to. *)
Definition Page : Type := StoreState T * list DockerError.

(** The initial value of the writable; [empty] is [[] as unknown as T]. *)
Definition initial (empty : T) : StoreState T :=
  {| data := empty; loading := false; lastUpdated := None |}.

(** [set]; [now] is [new Date()]. *)
Definition set (now : Z) (d : T) (s : StoreState T) : StoreState T :=
  {| data := d; loading := false; lastUpdated := Some now |}.

Definition setLoading (l : bool) (s : StoreState T) : StoreState T :=
  {| data := data s; loading := l; lastUpdated := lastUpdated s |}.

(** The error [refresh] reports for a thrown value; [now] is [new Date()]. *)
Definition fetchError (now : Z) (error : Thrown) : DockerError :=
  {| message := match error with
                | ErrorInstance m => m
                | NotAnError => "Unknown error"
                end;
     code := "FETCH_ERROR";
     timestamp := now |}.

(** [refresh] up to its [await]. *)
Definition refreshBegin (pg : Page) : Page :=
  (setLoading true (fst pg), snd pg).

(** [refresh] from the settling of [fetchFn()] on. *)
Definition refreshSettle (now : Z) (outcome : Settled T) (pg : Page) : Page :=
  match outcome with
  | Resolved d =>
      ({| data := d; loading := false; lastUpdated := Some now |}, snd pg)
  | Rejected error =>
      (setLoading false (fst pg), add (fetchError now error) (snd pg))
  end.

(** A [refresh] during which nothing else touches the two stores. *)
Definition refresh (now : Z) (outcome : Settled T) (pg : Page) : Page :=
  refreshSettle now outcome (refreshBegin pg).

End LoadingStore.

End Stores.

(** ** The module as a whole: the five stores, the error store, and the
    refreshes the module starts on its own *)

Module Dashboard.

Import Stores.

Local Open Scope list_scope.

(** The five loading stores of the module. *)
Inductive StoreId :=
| containersStore | imagesStore | composeStore | systemStore | diskUsageStore.

#[global] Instance StoreId_eq_dec : EqDecision StoreId.
Proof. solve_decision. Defined.

(** The methods of [DockerClient] the module calls. *)
Inductive Call :=
| getContainers | getImages | getComposeProjects | getSystemInfo | getDiskUsage.

#[global] Instance Call_eq_dec : EqDecision Call.
Proof. solve_decision. Defined.

(** *** One loading store under any sequence of calls of its methods *)

Section StoreOps.

Context {T : Type}.

(** The calls a loading store takes: [set], [setLoading], and the two
    halves of [refresh] around its [await]. *)
Inductive StoreOp :=
| OpSet (now : Z) (d : T)
| OpSetLoading (l : bool)
| OpRefreshBegin
| OpRefreshSettle (now : Z) (outcome : Settled T).

(** A loading store alone, with the error store it reports to. *)
Definition applyStoreOp (pg : @Page T) (op : StoreOp) : @Page T :=
  match op with
  | OpSet now d => (set now d (fst pg), snd pg)
  | OpSetLoading l => (setLoading l (fst pg), snd pg)
  | OpRefreshBegin => refreshBegin pg
  | OpRefreshSettle now outcome => refreshSettle now outcome pg
  end.

Definition pageAfter (empty : T) (ops : list StoreOp) : @Page T :=
  fold_left applyStoreOp ops (initial empty, []).

(** The value and the time of the latest [set] or resolved fetch. *)
Definition success (acc : option (Z * T)) (op : StoreOp) : option (Z * T) :=
  match op with
  | OpSet now d => Some (now, d)
  | OpRefreshSettle now (Resolved d) => Some (now, d)
  | _ => acc
  end.

Definition lastSuccess (ops : list StoreOp) : option (Z * T) :=
  fold_left success ops None.

End StoreOps.

(** *** The module *)

Section Module.

(** Values at run time, where the type parameters of the stores are
    erased. *)
Context {V : Type}.

(** The state of the module: the writables of the five stores and of the
    error store, the fetches that have not settled yet (oldest first),
    and the calls made to the client so far. *)
Record State := {
  stores : StoreId -> StoreState V;
  errors : list DockerError;
  inflight : list (StoreId * Call);
  requests : list Call
}.

Definition initialState (empty : V) : State :=
  {| stores := fun _ => initial empty; errors := []; inflight := []; requests := [] |}.

Definition setStore (i : StoreId) (s : StoreState V) (st : StoreId -> StoreState V)
  : StoreId -> StoreState V :=
  fun j => if decide (j = i) then s else st j.

(** [store.refresh(() => client.call())] up to its [await]: the store is
    marked loading and the call is made. *)
Definition refreshStart (i : StoreId) (c : Call) (m : State) : State :=
  let pg := refreshBegin (stores m i, errors m) in
  {| stores := setStore i (fst pg) (stores m); errors := snd pg;
     inflight := inflight m ++ [(i, c)]; requests := requests m ++ [c] |}.

(** The [k]-th pending fetch settles and its [refresh] runs to its end;
    there is nothing to settle when fewer fetches are pending. *)
Definition refreshEnd (k : nat) (now : Z) (outcome : Settled V) (m : State) : option State :=
  match inflight m !! k with
  | None => None
  | Some (i, _) =>
      let pg := refreshSettle now outcome (stores m i, errors m) in
      Some {| stores := setStore i (fst pg) (stores m); errors := snd pg;
              inflight := delete k (inflight m); requests := requests m |}
  end.

(** [handleWebSocketMessage(data)]; [type] is [data.type] when that is a
    string. *)
Definition handleWebSocketMessage (type : option string) (m : State) : State :=
  match type with
  | Some t =>
      if String.eqb t "container" then refreshStart containersStore getContainers m
      else if String.eqb t "image" then refreshStart imagesStore getImages m
      else if String.eqb t "compose" then refreshStart composeStore getComposeProjects m
      else if String.eqb t "system" then refreshStart systemStore getSystemInfo m
      else m
  | None => m
  end.

(** The callback of [setInterval]. *)
Definition intervalTick (m : State) : State := refreshStart systemStore getSystemInfo m.

(** [setupAutoRefresh] up to its return: the five refreshes of the
    initial load start in the order of the array. *)
Definition setupAutoRefresh (m : State) : State :=
  refreshStart diskUsageStore getDiskUsage
    (refreshStart systemStore getSystemInfo
      (refreshStart composeStore getComposeProjects
        (refreshStart imagesStore getImages
          (refreshStart containersStore getContainers m)))).

(** A call of a method of [errorStore], which the module exports. *)
Definition setErrors (f : list DockerError -> list DockerError) (m : State) : State :=
  {| stores := stores m; errors := f (errors m);
     inflight := inflight m; requests := requests m |}.

(** What happens to the page once [setupAutoRefresh] has returned: the
    module's own triggers, and the calls a component makes on the error
    store. *)
Inductive Event :=
| Message (type : option string)       (* a message parsed by [ws.onmessage] *)
| Tick                                 (* the interval fires *)
| Settle (k : nat) (now : Z) (outcome : Settled V)
| AddError (error : DockerError)       (* [errorStore.add(error)] *)
| ClearErrors.                         (* [errorStore.clear()] *)

Definition handle (e : Event) (m : State) : option State :=
  match e with
  | Message type => Some (handleWebSocketMessage type m)
  | Tick => Some (intervalTick m)
  | Settle k now outcome => refreshEnd k now outcome m
  | AddError error => Some (setErrors (add error) m)
  | ClearErrors => Some (setErrors clear m)
  end.

Fixpoint run (events : list Event) (m : State) : option State :=
  match events with
  | [] => Some m
  | e :: rest =>
      match handle e m with
      | Some m' => run rest m'
      | None => None
      end
  end.

(** The errors reported during a run since the last [clear], newest
    first: one per rejected fetch and one per [add]. *)
Definition report (acc : list DockerError) (e : Event) : list DockerError :=
  match e with
  | Settle _ now (Rejected error) => fetchError now error :: acc
  | AddError error => error :: acc
  | ClearErrors => []
  | _ => acc
  end.

Definition reported (events : list Event) : list DockerError :=
  fold_left report events [].

(** The run has no [errorStore.add] from outside the module. *)
Definition noAdd (e : Event) : bool :=
  match e with
  | AddError _ => false
  | _ => true
  end.

(** *** Invariants of the runs *)

(** Every store that shows [loading] has a fetch pending. *)
Definition loadingHasFetch (m : State) : Prop :=
  forall i, loading (stores m i) = true -> exists c, (i, c) ∈ inflight m.

(** [getDiskUsage] was called once. *)
Definition diskFetchedOnce (m : State) : Prop :=
  filter (fun c => c = getDiskUsage) (requests m) = [getDiskUsage].

(** No fetch for [diskUsageStore] is pending. *)
Definition diskSettled (m : State) : Prop := forall c, (diskUsageStore, c) ∉ inflight m.

End Module.

(** The client method each store is refreshed with. *)
Definition clientCall (i : StoreId) : Call :=
  match i with
  | containersStore => getContainers
  | imagesStore => getImages
  | composeStore => getComposeProjects
  | systemStore => getSystemInfo
  | diskUsageStore => getDiskUsage
  end.

(** Every pending fetch is the one of its store. *)
Definition wired {V : Type} (m : @State V) : Prop :=
  Forall (fun p => snd p = clientCall (fst p)) (inflight m).

(** A page load during which the disk usage fetch fails and a [system]
    message arrives before the first system fetch has settled: the first
    event starts a second system fetch, the next two settle the first
    system fetch and the disk usage fetch, the last three the fetches of
    containers, images and projects. *)
Definition sampleRun : list (@Event Z) :=
  [Message (Some "system"); Settle 3 10 (Resolved 7); Settle 3 11 (Rejected NotAnError);
   Settle 0 12 (Resolved 1); Settle 0 13 (Resolved 2); Settle 0 14 (Resolved 3)].

Definition sampleState : @State Z :=
  default (initialState 0) (run sampleRun (setupAutoRefresh (initialState 0))).

(** The first two events of [sampleRun]: the first system fetch has
    settled, the second and the rest of the initial load are pending. *)
Definition overlapRun : list (@Event Z) := take 2 sampleRun.

Definition overlapState : @State Z :=
  default (initialState 0) (run overlapRun (setupAutoRefresh (initialState 0))).

(** A page load with two failed fetches, and a component that reports an
    error of its own, clears the store and reports another one in
    between. *)
Definition sampleError (message : string) : DockerError :=
  {| message := message; code := "UI_ERROR"; timestamp := 0 |}.

Definition errorRun : list (@Event Z) :=
  [Settle 4 11 (Rejected NotAnError); AddError (sampleError "first"); ClearErrors;
   AddError (sampleError "second"); Settle 3 12 (Rejected (ErrorInstance "timeout"))].

Definition errorState : @State Z :=
  default (initialState 0) (run errorRun (setupAutoRefresh (initialState 0))).

End Dashboard.

(** * Part II: theorems *)

#[local] Arguments String.append !s1 s2 : simpl nomatch.

(** ** The library models on sample inputs *)

Example cleanPath_examples :
  map cleanPath ["/api/compose/projects/"; "/api/compose/projects/demo";
                 "/api//compose"; "/api/compose/projects/.."; "/a/./b/"; "/../x"; "/"]
  = ["/api/compose/projects/"; "/api/compose/projects/demo";
     "/api/compose"; "/api/compose"; "/a/b/"; "/x"; "/"].
Proof. reflexivity. Qed.

Example ctxErr_examples :
  ctxErr (WithDeadline (WithCancel Background (Some 5)) 10) 4 = None
  /\ ctxErr (WithDeadline (WithCancel Background (Some 5)) 10) 7 = Some "context canceled"
  /\ ctxErr (WithDeadline (WithCancel Background (Some 5)) 10) 12 = Some "context canceled"
  /\ ctxErr (WithDeadline (WithCancel Background (Some 15)) 10) 12
     = Some "context deadline exceeded"
  /\ ctxErr (WithDeadline (WithCancel Background (Some 15)) 10) 20
     = Some "context deadline exceeded"
  /\ ctxErr (WithCancel (WithDeadline Background 10) None) 10
     = Some "context deadline exceeded".
Proof. repeat split. Qed.

(** A context is done from the instant of the first event that ends it. *)
Lemma earlier_fires (a b : option (Z * bool)) (t : Z) :
  match earlier a b with Some (x, _) => x <=? t | None => false end
  = match a with Some (x, _) => x <=? t | None => false end
    || match b with Some (x, _) => x <=? t | None => false end.
Proof.
  destruct a as [[x p]|], b as [[y q]|]; cbn [earlier orb]; rewrite ?orb_false_r; try reflexivity.
  destruct (y <? x) eqn:E.
  - apply Z.ltb_lt in E. destruct (x <=? t) eqn:Ex; [|reflexivity].
    apply Z.leb_le in Ex. cbn. apply Z.leb_le. lia.
  - apply Z.ltb_ge in E. destruct (y <=? t) eqn:Ey; [|now rewrite orb_false_r].
    apply Z.leb_le in Ey. rewrite orb_true_r. apply Z.leb_le. lia.
Qed.

Lemma Done_ending (c : Context) (t : Z) :
  Done c t = match ending c with Some (x, _) => x <=? t | None => false end.
Proof.
  induction c as [|p IH a|p IH d|p IH k v]; cbn [Done ending]; try assumption; try reflexivity.
  - rewrite earlier_fires, <- IH. destruct a; cbn; [reflexivity|now rewrite orb_false_r].
  - now rewrite earlier_fires, <- IH.
Qed.

Example Split_examples :
  map (fun s => Split s slash) [EmptyString; "demo"; "demo/up"; "/up"; "demo/"; "p/services/web/scale"]
  = [[EmptyString]; ["demo"]; ["demo"; "up"]; [EmptyString; "up"]; ["demo"; EmptyString];
     ["p"; "services"; "web"; "scale"]].
Proof. reflexivity. Qed.

Example RFC3339_examples :
  map RFC3339 [0; 1700000000 * Second; 951782400 * Second + 999]
  = ["1970-01-01T00:00:00Z"; "2023-11-14T22:13:20Z"; "2000-02-29T00:00:00Z"].
Proof. reflexivity. Qed.

(** ** Strings and paths *)

Lemma eqs_eq a b : eqs a b = true <-> a = b.
Proof. apply String.eqb_eq. Qed.

Lemma eqs_neq a b : eqs a b = false <-> a <> b.
Proof. apply String.eqb_neq. Qed.

Lemma eqs_refl a : eqs a a = true.
Proof. apply String.eqb_refl. Qed.

Lemma Split_nonempty s sep : Split s sep <> [].
Proof.
  destruct s as [|c t]; cbn; [discriminate|].
  destruct (Ascii.eqb c sep); [discriminate|].
  destruct (Split t sep); discriminate.
Qed.

(** A string that splits into one element has no separator in it. *)
Lemma Split_single s sep :
  List.length (Split s sep) = 1%nat -> Split s sep = [s].
Proof.
  induction s as [|c t IH]; cbn; [reflexivity|].
  destruct (Ascii.eqb c sep) eqn:E.
  - pose proof (Split_nonempty t sep). destruct (Split t sep); cbn; [congruence|discriminate].
  - pose proof (Split_nonempty t sep).
    destruct (Split t sep) as [|p ps] eqn:S; cbn; [congruence|].
    intros L. destruct ps; [|discriminate].
    specialize (IH eq_refl). injection IH as ->. reflexivity.
Qed.

Lemma Split_single_head s sep c t :
  Split s sep = [s] -> s = String c t -> Ascii.eqb c sep = false /\ Split t sep = [t].
Proof.
  intros H ->. cbn in H. destruct (Ascii.eqb c sep); [discriminate|]. split; [reflexivity|].
  pose proof (Split_nonempty t sep).
  destruct (Split t sep) as [|p ps]; [congruence|].
  injection H as H1 H2. subst. reflexivity.
Qed.

Lemma Split_app pre s sep :
  Split s sep = [s] ->
  Split (pre +:+ s) sep
  = (removelast (Split pre sep) ++ [List.last (Split pre sep) EmptyString +:+ s])%list.
Proof.
  intros Hs. induction pre as [|c t IH]; simpl.
  - rewrite Hs. reflexivity.
  - rewrite IH. pose proof (Split_nonempty t sep) as Hne.
    destruct (Ascii.eqb c sep).
    + destruct (Split t sep) as [|p ps]; [congruence|]. reflexivity.
    + destruct (Split t sep) as [|p ps]; [congruence|].
      destruct ps; reflexivity.
Qed.

Lemma HasSuffix_slash_single s :
  Split s slash = [s] -> HasSuffix s "/" = false.
Proof.
  induction s as [|c t IH]; intros H; [reflexivity|].
  destruct (Split_single_head _ _ c t H eq_refl) as [Hc Ht].
  cbn [HasSuffix]. rewrite (IH Ht), orb_false_r.
  unfold eqs. cbn. unfold slash in Hc. rewrite Hc. reflexivity.
Qed.

Lemma HasSuffix_app_single pre c t :
  Split (String c t) slash = [String c t] -> HasSuffix (pre +:+ String c t) "/" = false.
Proof.
  intros H. induction pre as [|d u IH]; simpl String.append.
  - apply HasSuffix_slash_single, H.
  - cbn [HasSuffix]. rewrite IH, orb_false_r.
    unfold eqs. cbn. destruct (Ascii.eqb d "/"); [|reflexivity].
    destruct u; reflexivity.
Qed.

Lemma cleanPath_rooted t :
  cleanPath (String "/" t)
  = if HasSuffix (String "/" t) "/" && negb (eqs (path_Clean (String "/" t)) "/")
    then path_Clean (String "/" t) +:+ "/" else path_Clean (String "/" t).
Proof. reflexivity. Qed.

Lemma append_assoc (a b c : string) : (a +:+ b) +:+ c = a +:+ (b +:+ c).
Proof. induction a as [|x a IH]; simpl; [reflexivity|]. now rewrite IH. Qed.

Lemma append_nil_r (a : string) : a +:+ EmptyString = a.
Proof. induction a as [|x a IH]; simpl; [reflexivity|]. now rewrite IH. Qed.

Lemma joinSlash_snoc l s :
  l <> [] -> joinSlash (l ++ [s]) = joinSlash l +:+ "/" +:+ s.
Proof.
  induction l as [|x l IH]; [congruence|]. intros _.
  destruct l as [|y l]; [reflexivity|].
  change (joinSlash ((x :: y :: l) ++ [s])) with (x +:+ "/" +:+ joinSlash ((y :: l) ++ [s])).
  rewrite IH by discriminate.
  change (joinSlash (x :: y :: l)) with (x +:+ "/" +:+ joinSlash (y :: l)).
  now rewrite !append_assoc.
Qed.

Lemma cleanStep_keep kept name :
  name <> EmptyString -> name <> "." -> name <> ".." -> cleanStep kept name = name :: kept.
Proof.
  intros H1 H2 H3. unfold cleanStep.
  apply eqs_neq in H1, H2, H3. now rewrite H1, H2, H3.
Qed.

(** A single clean element appended under a clean directory path gives a
    clean path; the data of the directory are passed computed. *)
Lemma cleanPath_under pre segs kept name :
  Split name slash = [name] -> name <> "." -> name <> ".." ->
  removelast (Split (String "/" pre) slash) = segs ->
  List.last (Split (String "/" pre) slash) EmptyString = EmptyString ->
  fold_left cleanStep segs [] = kept -> rev kept <> [] ->
  HasSuffix (String "/" pre) "/" = true ->
  eqs ("/" +:+ joinSlash (rev kept)) "/" = false ->
  ("/" +:+ joinSlash (rev kept)) +:+ "/" = String "/" pre ->
  cleanPath (String "/" pre +:+ name) = String "/" pre +:+ name.
Proof.
  intros Hs Hd Hdd Hsegs Hlast Hkept Hne Hsuf Hnr Hjoin.
  change (String "/" pre +:+ name) with (String "/" (pre +:+ name)).
  rewrite cleanPath_rooted.
  change (String "/" (pre +:+ name)) with (String "/" pre +:+ name).
  unfold path_Clean.
  rewrite (Split_app _ _ _ Hs), Hsegs, Hlast, fold_left_app, Hkept.
  cbn [fold_left]. change (EmptyString +:+ name) with name.
  destruct name as [|c t].
  - rewrite append_nil_r, Hsuf. cbn [cleanStep eqs String.eqb orb].
    rewrite Hnr. cbn [negb andb]. exact Hjoin.
  - rewrite (HasSuffix_app_single _ _ _ Hs). cbn [andb].
    rewrite cleanStep_keep by (assumption || discriminate).
    cbn [rev]. rewrite joinSlash_snoc by assumption.
    rewrite <- Hjoin. now rewrite !append_assoc.
Qed.

Lemma cleanPath_api_compose name :
  Split name slash = [name] -> name <> "." -> name <> ".." ->
  cleanPath ("/api/compose/projects/" +:+ name) = "/api/compose/projects/" +:+ name.
Proof.
  intros Hs Hd Hdd.
  eapply (cleanPath_under "api/compose/projects/"); eauto; try reflexivity; try discriminate.
Qed.

Lemma cleanPath_compose name :
  Split name slash = [name] -> name <> "." -> name <> ".." ->
  cleanPath ("/compose/projects/" +:+ name) = "/compose/projects/" +:+ name.
Proof.
  intros Hs Hd Hdd.
  eapply (cleanPath_under "compose/projects/"); eauto; try reflexivity; try discriminate.
Qed.

Ltac go_unfold :=
  unfold mbind, Go_bind, mret, Go_ret, modify, gets, time_Now, log_Printf, panic in *.

Lemma recoveryMiddleware_run next r w :
  recoveryMiddleware next connWriter r w
  = match next connWriter r w with
    | (Returned tt, w1) => (Returned tt, w1)
    | (Panicking v, w1) => (Returned tt, recovered v w1)
    end.
Proof.
  unfold recoveryMiddleware, deferRecover.
  destruct (next connWriter r w) as [[[]|v] w1]; [reflexivity|].
  unfold recovered, Error. go_unfold. cbn. unfold writeHeader, set_resp, set_logs. cbn.
  now rewrite <- app_assoc.
Qed.

Lemma corsMiddleware_preflight next r w :
  eqs (Method r) "OPTIONS" = true ->
  corsMiddleware next connWriter r w
  = (Returned tt, writeHeader StatusOK (set_resp corsHeaders w)).
Proof. intros H. unfold corsMiddleware. go_unfold. cbn. rewrite H. reflexivity. Qed.

Lemma corsMiddleware_pass next r w :
  eqs (Method r) "OPTIONS" = false ->
  corsMiddleware next connWriter r w = next connWriter r (set_resp corsHeaders w).
Proof. intros H. unfold corsMiddleware. go_unfold. cbn. rewrite H. reflexivity. Qed.

Lemma requestIDMiddleware_run next r w :
  requestIDMiddleware next connWriter r w
  = next connWriter (WithContext r (WithValue (ctx r) requestIDKey (requestIDOf r w)))
      (afterRequestID r w).
Proof.
  unfold requestIDMiddleware, afterRequestID, requestIDOf, incomingID. go_unfold.
  destruct w, (eqs (Header_Get (reqHeader r) "X-Request-ID") EmptyString); reflexivity.
Qed.

Lemma timeoutMiddleware_run d next w r s :
  timeoutMiddleware d next w r s
  = next w (WithContext r (WithDeadline (ctx r) (clock s + d))) s.
Proof. reflexivity. Qed.

Lemma loggingMiddleware_run next w r s :
  loggingMiddleware next w r s
  = let cell := List.length (cells s) in
    match next (responseWriter w cell) r (set_cells (fun m => (m ++ [StatusOK])%list) s) with
    | (Returned tt, s1) =>
        (Returned tt,
         set_logs (fun l => (l ++ [accessEntry (seen r s1) (default 0 (cells s1 !! cell))
                                               (clock s1 - clock s)])%list) s1)
    | (Panicking v, s1) => (Panicking v, s1)
    end.
Proof.
  unfold loggingMiddleware. go_unfold. cbn.
  destruct (next _ r _) as [[[]|v] s1]; reflexivity.
Qed.

Lemma chain_run h r w :
  eqs (Method r) "OPTIONS" = false ->
  chain h connWriter r w
  = match h (chainWriter w) (delivered r w) (entered r w) with
    | (Returned tt, s1) =>
        (Returned tt,
         set_logs (fun l => (l ++ [accessEntry (seen (identified r w) s1)
                                      (default 0 (cells s1 !! List.length (cells w)))
                                      (clock s1 - clock w)])%list) s1)
    | (Panicking v, s1) => (Returned tt, recovered v s1)
    end.
Proof.
  intros Hm. unfold chain.
  rewrite corsMiddleware_pass by assumption.
  rewrite requestIDMiddleware_run, recoveryMiddleware_run, loggingMiddleware_run.
  cbv zeta. rewrite timeoutMiddleware_run.
  change (h _ _ _) with (h (chainWriter w) (delivered r w) (entered r w)).
  destruct (h (chainWriter w) (delivered r w) (entered r w)) as [[[]|v] s1]; reflexivity.
Qed.

Lemma chain_preflight h r w :
  eqs (Method r) "OPTIONS" = true ->
  chain h connWriter r w
  = (Returned tt, writeHeader StatusOK (set_resp corsHeaders w)).
Proof. intros Hm. unfold chain. now rewrite corsMiddleware_preflight. Qed.

Section RoutesFacts.

Variable containerHandler : ContainerHandler.
Variable imageHandler : ImageHandler.
Variable composeHandler : ComposeHandler.
Variable fileServer : Handler.

Lemma composeRoute_one_segment w r name s :
  Path r = "/compose/projects/" +:+ name ->
  Split name slash = [name] ->
  eqs (Method r) MethodGet = false ->
  composeRoute composeHandler w r s
  = (Panicking "runtime error: index out of range [1] with length 1", s).
Proof.
  intros HP Hs Hm. unfold composeRoute. rewrite HP.
  change (TrimPrefix ("/compose/projects/" +:+ name) "/compose/projects/") with name.
  rewrite Hs, Hm. go_unfold. cbn.
  destruct (eqs name EmptyString); cbn; rewrite ?andb_false_r; reflexivity.
Qed.

Lemma if_same {A} (b : bool) (x : A) : (if b then x else x) = x.
Proof. now destruct b. Qed.

Lemma apiRouter_compose w r name s :
  Path r = "/compose/projects/" +:+ name ->
  Split name slash = [name] -> name <> "." -> name <> ".." ->
  ServeHTTP (apiRouter containerHandler imageHandler composeHandler) w r s
  = composeRoute composeHandler w r s.
Proof.
  intros HP Hs Hd Hdd. unfold ServeHTTP. rewrite HP.
  rewrite (cleanPath_compose _ Hs Hd Hdd), if_same.
  cbv zeta. rewrite eqs_refl. cbn [negb].
  unfold apiRouter. simpl.
  destruct name; simpl; rewrite ?andb_false_r; reflexivity.
Qed.

Lemma mux_compose w r name s :
  Path r = "/api/compose/projects/" +:+ name ->
  Split name slash = [name] -> name <> "." -> name <> ".." ->
  ServeHTTP (mux containerHandler imageHandler composeHandler fileServer) w r s
  = composeRoute composeHandler w (WithPath r ("/compose/projects/" +:+ name)) s.
Proof.
  intros HP Hs Hd Hdd. unfold ServeHTTP at 1. rewrite HP.
  rewrite (cleanPath_api_compose _ Hs Hd Hdd), if_same.
  cbv zeta. rewrite eqs_refl. cbn [negb].
  unfold mux. simpl. rewrite andb_false_r.
  unfold StripPrefix. rewrite HP.
  change (TrimPrefix ("/api/compose/projects/" +:+ name) "/api")
    with ("/compose/projects/" +:+ name).
  replace (String.length ("/compose/projects/" +:+ name)
           <? String.length ("/api/compose/projects/" +:+ name))%nat with true
    by (symmetry; apply Nat.ltb_lt; simpl; lia).
  now apply (apiRouter_compose _ _ name).
Qed.

End RoutesFacts.

Lemma Header_Get_Set h k v : Header_Get (Header_Set h k v) k = v.
Proof. unfold Header_Get, Header_Set. now rewrite lookup_insert_eq. Qed.

Lemma wireStatus_recovered v w :
  wireStatus (recovered v w)
  = match wireStatus w with Some c => Some c | None => Some StatusInternalServerError end.
Proof.
  unfold wireStatus, recovered, errorResponse, appendBody, commit.
  destruct w as [? ? ? ? [hd [c|] b] ? ?]; reflexivity.
Qed.

Lemma body_recovered v w :
  body (resp (recovered v w)) = body (resp w) +:+ "Internal Server Error" +:+ nl.
Proof.
  unfold recovered, errorResponse, appendBody, commit.
  destruct w as [? ? ? ? [hd [c|] b] ? ?]; reflexivity.
Qed.

Lemma logs_recovered v w :
  logs (recovered v w) = (logs w ++ panicEntry v :: superfluous w)%list.
Proof. reflexivity. Qed.

Lemma superfluous_fresh w : committed (resp w) = None -> superfluous w = [].
Proof. unfold superfluous. now intros ->. Qed.

Lemma superfluous_status w :
  superfluous w = match wireStatus w with Some _ => [superfluousEntry] | None => [] end.
Proof. unfold superfluous, wireStatus. now destruct (committed (resp w)). Qed.

Lemma chain_returns h r w : fst (chain h connWriter r w) = Returned tt.
Proof.
  destruct (eqs (Method r) "OPTIONS") eqn:Hm.
  - now rewrite chain_preflight.
  - rewrite chain_run by assumption.
    destruct (h _ _ _) as [[[]|v] s1]; reflexivity.
Qed.

(** C2 (as amended): whatever the handler below [recoveryMiddleware] does,
    the middleware returns normally.  When the handler panics with value
    [v], the middleware logs [v] with the stack and appends the line
    [Internal Server Error] to the body; the status on the wire is 500
    when the handler had not started its response, and the status the
    handler had already sent otherwise, in which case the server adds its
    line about the superfluous [WriteHeader] to the log.  No request makes
    the handler of the server panic. *)
Theorem recovery_contains_panics :
  (forall (next : Handler) (r : Request) (w : World),
     match next connWriter r w with
     | (Returned tt, w1) => recoveryMiddleware next connWriter r w = (Returned tt, w1)
     | (Panicking v, w1) =>
         exists w',
           recoveryMiddleware next connWriter r w = (Returned tt, w')
           /\ logs w'
              = (logs w1 ++ panicEntry v
                   :: match wireStatus w1 with
                      | Some _ => [superfluousEntry]
                      | None => []
                      end)%list
           /\ body (resp w') = body (resp w1) +:+ "Internal Server Error" +:+ nl
           /\ wireStatus w'
              = match wireStatus w1 with
                | Some c => Some c
                | None => Some StatusInternalServerError
                end
     end)
  /\ (forall containerHandler imageHandler composeHandler fileServer r w,
        fst (handler containerHandler imageHandler composeHandler fileServer connWriter r w)
        = Returned tt).
Proof.
  split.
  - intros next r w. rewrite recoveryMiddleware_run.
    destruct (next connWriter r w) as [[[]|v] w1]; [reflexivity|].
    exists (recovered v w1). repeat split.
    + now rewrite logs_recovered, superfluous_status.
    + apply body_recovered.
    + apply wireStatus_recovered.
  - intros. apply chain_returns.
Qed.

(** C2 as stated fails: a [ListProjects] that has written part of its
    answer when it panics leaves the client with status 200, not 500; the
    recovery text lands behind the partial body, and the log gets the
    panic entry followed by the server's line about the superfluous
    [WriteHeader]. *)
Lemma recovery_after_partial_response_keeps_200 :
  let w' := snd (boomServer connWriter (req0 "GET" "/api/compose/projects/") world0) in
  fst (boom connWriter (req0 "GET" "/compose/projects/") world0) = Panicking "boom"
  /\ wireStatus w' = Some StatusOK
  /\ wireStatus w' <> Some StatusInternalServerError
  /\ body (resp w') = "partial" +:+ "Internal Server Error" +:+ nl
  /\ logs w' = [panicEntry "boom"; superfluousEntry].
Proof. vm_compute. repeat split. discriminate. Qed.

Lemma derived_refl c : derived c c.
Proof. destruct c; left; reflexivity. Qed.

Lemma derived_Done c p t : derived c p -> Done p t = true -> Done c t = true.
Proof.
  induction c as [|q IH a|q IH d|q IH k v]; cbn [derived]; intros [->|H] Hd;
    try assumption; try contradiction.
  - cbn [Done]. destruct a; rewrite (IH H Hd); reflexivity.
  - cbn [Done]. now rewrite (IH H Hd).
  - cbn [Done]. now apply IH.
Qed.

(** C3: for a request that reaches the routing mux (any method but
    OPTIONS), the mux handler [h] is called once, with a request whose
    context is the caller's context with the request id attached and a
    deadline 30 seconds after the entry; that context is done exactly when
    the caller's is done or the deadline has passed, and every context
    derived from it (such as the one [dockerInfoHandler] gives the engine
    call) is done with it. *)
Theorem mux_runs_under_deadline (h : Handler) (r : Request) (w : World)
    (Hm : eqs (Method r) "OPTIONS" = false) :
  let c := ctx (delivered r w) in
  chain h connWriter r w
  = match h (chainWriter w) (delivered r w) (entered r w) with
    | (Returned tt, s1) =>
        (Returned tt,
         set_logs (fun l => (l ++ [accessEntry (seen (identified r w) s1)
                                      (default 0 (cells s1 !! List.length (cells w)))
                                      (clock s1 - clock w)])%list) s1)
    | (Panicking v, s1) => (Returned tt, recovered v s1)
    end
  /\ c = WithDeadline (WithValue (ctx r) requestIDKey (requestIDOf r w))
                      (clock (entered r w) + 30 * Second)
  /\ derived c (ctx r)
  /\ (forall t, Done c t = Done (ctx r) t || (clock w + 30 * Second <=? t))
  /\ (forall c' t, derived c' c -> Done c t = true -> Done c' t = true)
  /\ (forall now, derived (WithTimeout c now (5 * Second)) (ctx r)).
Proof.
  cbv zeta. split; [now apply chain_run|]. split; [reflexivity|].
  split; [right; right; apply derived_refl|].
  split; [reflexivity|]. split.
  - intros c' t. apply derived_Done.
  - intros now. right. right. right. apply derived_refl.
Qed.

Lemma mux_runs_under_deadline_witness :
  eqs (Method (req0 "GET" "/health")) "OPTIONS" = false
  /\ Done (ctx (delivered (req0 "GET" "/health") world0)) (clock world0 + 30 * Second) = true.
Proof.
  split; [reflexivity|].
  destruct (mux_runs_under_deadline healthHandler (req0 "GET" "/health") world0 eq_refl)
    as (_ & _ & _ & H & _).
  rewrite H. vm_compute. reflexivity.
Defined.

(** C5 (as amended): for a request whose method is not OPTIONS, the
    request id is the incoming [X-Request-ID] value when that is not
    empty and the next UUID of the generator otherwise; the handler after
    [requestIDMiddleware] sees it in the request context under
    [requestIDKey], and it is set as [X-Request-ID] on the response
    before that handler runs. *)
Theorem request_id_correlated (next : Handler) (r : Request) (w : World)
    (Hm : eqs (Method r) "OPTIONS" = false) :
  let id := requestIDOf r w in
  let r' := identified r w in
  let w' := afterRequestID r (set_resp corsHeaders w) in
  corsMiddleware (requestIDMiddleware next) connWriter r w = next connWriter r' w'
  /\ (incomingID r <> EmptyString -> id = incomingID r)
  /\ (incomingID r = EmptyString -> id = hd nilUUID (uuids w) /\ uuids w' = tail (uuids w))
  /\ Value (ctx r') requestIDKey = Some id
  /\ Header_Get (header (resp w')) "X-Request-ID" = id
  /\ committed (resp w') = committed (resp w).
Proof.
  cbv zeta. split.
  - rewrite corsMiddleware_pass by assumption. now rewrite requestIDMiddleware_run.
  - unfold requestIDOf, afterRequestID. split; [|split; [|split; [|split]]].
    + intros H. apply eqs_neq in H. now rewrite H.
    + intros ->. split; reflexivity.
    + reflexivity.
    + cbn [resp set_resp set_uuids header setHeader]. apply Header_Get_Set.
    + reflexivity.
Qed.

Lemma request_id_correlated_witness :
  eqs (Method (req0 "GET" "/health")) "OPTIONS" = false
  /\ Header_Get (header (resp (afterRequestID (req0 "GET" "/health")
                                 (set_resp corsHeaders world0)))) "X-Request-ID"
     = "6ba7b810-9dad-41d1-80b4-00c04fd430c8".
Proof.
  split; [reflexivity|].
  destruct (request_id_correlated healthHandler (req0 "GET" "/health") world0 eq_refl)
    as (_ & _ & _ & _ & H & _).
  rewrite H. vm_compute. reflexivity.
Defined.

(** C5 as stated fails: a preflight request is answered by
    [corsMiddleware] alone; its response carries no [X-Request-ID],
    although the request had one. *)
Lemma preflight_has_no_request_id :
  let r := withRequestID (req0 "OPTIONS" "/api/compose/projects/demo") "abc" in
  let w' := snd (probeServer connWriter r world0) in
  incomingID r = "abc"
  /\ wireStatus w' = Some StatusOK
  /\ header (resp w') !! "X-Request-Id" = None
  /\ (snd <$> committed (resp w')) ≫= (fun h => h !! "X-Request-Id") = None
  /\ Header_Get (header (resp w')) "X-Request-ID" <> incomingID r.
Proof. vm_compute. repeat split. discriminate. Qed.

Section ComposeReach.

Variable containerHandler : ContainerHandler.
Variable imageHandler : ImageHandler.
Variable composeHandler : ComposeHandler.
Variable fileServer : Handler.

(** A CONNECT request is matched on its path as it is. *)
Lemma mux_compose_connect w r name s :
  Path r = "/api/compose/projects/" +:+ name ->
  Split name slash = [name] ->
  eqs (Method r) "CONNECT" = true ->
  ServeHTTP (mux containerHandler imageHandler composeHandler fileServer) w r s
  = composeRoute composeHandler w (WithPath r ("/compose/projects/" +:+ name)) s.
Proof.
  intros HP Hs Hc.
  unfold ServeHTTP at 1. rewrite HP, Hc. cbv zeta. rewrite eqs_refl. cbn [negb].
  unfold mux. simpl. rewrite andb_false_r.
  unfold StripPrefix. rewrite HP.
  change (TrimPrefix ("/api/compose/projects/" +:+ name) "/api")
    with ("/compose/projects/" +:+ name).
  replace (String.length ("/compose/projects/" +:+ name)
           <? String.length ("/api/compose/projects/" +:+ name))%nat with true
    by (symmetry; apply Nat.ltb_lt; simpl; lia).
  unfold ServeHTTP. cbn [Method Path WithPath]. rewrite Hc. cbv zeta.
  rewrite eqs_refl. cbn [negb].
  unfold apiRouter. simpl.
  destruct name; simpl; rewrite ?andb_false_r; reflexivity.
Qed.

(** The two names that [cleanPath] removes. *)
Lemma cleanPath_dots name :
  name = "." \/ name = ".." ->
  cleanPath ("/api/compose/projects/" +:+ name)
  = (if eqs name "." then "/api/compose/projects" else "/api/compose").
Proof. intros [->| ->]; reflexivity. Qed.

Lemma mux_compose_dots w r name s :
  Path r = "/api/compose/projects/" +:+ name ->
  name = "." \/ name = ".." ->
  eqs (Method r) "CONNECT" = false ->
  ServeHTTP (mux containerHandler imageHandler composeHandler fileServer) w r s
  = Redirect w r (cleanPath (Path r)) StatusMovedPermanently s.
Proof.
  intros HP Hn Hc. unfold ServeHTTP. rewrite HP, Hc.
  destruct Hn as [->| ->]; reflexivity.
Qed.

End ComposeReach.

Lemma Redirect_wrapped n r url code s :
  Redirect (responseWriter connWriter n) r url code s
  = (Returned tt,
     set_cells (fun m => <[n := code]> m)
       (writeHeader code (set_resp (setHeader "Location" url) s))).
Proof. reflexivity. Qed.

(** C8 (as amended): a request for [/api/compose/projects/] or
    [/api/compose/projects/{name}], with [name] one path element, whose
    method is neither GET nor OPTIONS: the compose route handler, handed
    the request, panics on [parts[1]] with an index out of range, and
    whatever mux hands it over, [recoveryMiddleware] turns that into
    status 500 with the body [Internal Server Error] and a [[PANIC]] log
    entry.  The mux of the server hands it over when the method is
    CONNECT or the name is neither [.] nor [..]; a request of another
    method with one of these two names reaches no handler and is answered
    with a redirect to its cleaned path. *)
Theorem project_only_non_get_is_500
    (containerHandler : ContainerHandler) (imageHandler : ImageHandler)
    (composeHandler : ComposeHandler) (fileServer : Handler)
    (r : Request) (name : string) (w : World)
    (Hpath : Path r = "/api/compose/projects/" +:+ name)
    (Hone : List.length (Split name slash) = 1%nat)
    (Hget : eqs (Method r) MethodGet = false)
    (Hopt : eqs (Method r) "OPTIONS" = false)
    (Hfresh : committed (resp w) = None) :
  composeRoute composeHandler (chainWriter w)
    (WithPath (delivered r w) ("/compose/projects/" +:+ name)) (entered r w)
  = (Panicking outOfRange, entered r w)
  /\ (forall m : Handler,
        m (chainWriter w) (delivered r w) (entered r w)
        = composeRoute composeHandler (chainWriter w)
            (WithPath (delivered r w) ("/compose/projects/" +:+ name)) (entered r w) ->
        chain m connWriter r w = (Returned tt, recovered outOfRange (entered r w)))
  /\ (eqs (Method r) "CONNECT" = true \/ (name <> "." /\ name <> "..") ->
      handler containerHandler imageHandler composeHandler fileServer connWriter r w
      = (Returned tt, recovered outOfRange (entered r w)))
  /\ wireStatus (recovered outOfRange (entered r w)) = Some StatusInternalServerError
  /\ body (resp (recovered outOfRange (entered r w)))
     = body (resp w) +:+ "Internal Server Error" +:+ nl
  /\ logs (recovered outOfRange (entered r w)) = (logs w ++ [panicEntry outOfRange])%list
  /\ (eqs (Method r) "CONNECT" = false -> name = "." \/ name = ".." ->
      exists w',
        (forall containerHandler' imageHandler' composeHandler' fileServer',
           handler containerHandler' imageHandler' composeHandler' fileServer' connWriter r w
           = (Returned tt, w'))
        /\ wireStatus w' <> Some StatusInternalServerError
        /\ Header_Get (header (resp w')) "Location" = cleanPath (Path r)
        /\ body (resp w') = body (resp w)).
Proof.
  apply Split_single in Hone.
  assert (Hroute :
    composeRoute composeHandler (chainWriter w)
      (WithPath (delivered r w) ("/compose/projects/" +:+ name)) (entered r w)
    = (Panicking outOfRange, entered r w)).
  { apply (composeRoute_one_segment _ _ _ name); [reflexivity|assumption|assumption]. }
  assert (Hany : forall m : Handler,
    m (chainWriter w) (delivered r w) (entered r w)
    = composeRoute composeHandler (chainWriter w)
        (WithPath (delivered r w) ("/compose/projects/" +:+ name)) (entered r w) ->
    chain m connWriter r w = (Returned tt, recovered outOfRange (entered r w))).
  { intros m Hm. rewrite chain_run by assumption. now rewrite Hm, Hroute. }
  split; [exact Hroute|]. split; [exact Hany|]. split; [|split; [|split; [|split]]].
  - intros Hreach. unfold handler. apply Hany.
    destruct Hreach as [Hc|[Hdot Hdotdot]].
    + now apply (mux_compose_connect _ _ _ _ _ _ name).
    + now apply (mux_compose _ _ _ _ _ _ name).
  - rewrite wireStatus_recovered. unfold wireStatus. cbn. now rewrite Hfresh.
  - rewrite body_recovered. reflexivity.
  - rewrite logs_recovered, superfluous_fresh by exact Hfresh. reflexivity.
  - intros Hc Hn. eexists. split; [|split; [|split]].
    + intros ch' ih' co' fs'. unfold handler. rewrite chain_run by assumption.
      rewrite (mux_compose_dots ch' ih' co' fs' _ _ name) by assumption.
      unfold chainWriter. rewrite Redirect_wrapped. reflexivity.
    + unfold wireStatus, writeHeader, commit.
      cbn [resp set_logs set_cells set_resp committed setHeader].
      change (committed (resp (entered r w))) with (committed (resp w)).
      rewrite Hfresh. cbn. discriminate.
    + unfold writeHeader, commit.
      cbn [resp set_logs set_cells set_resp committed setHeader header].
      change (committed (resp (entered r w))) with (committed (resp w)).
      rewrite Hfresh. cbn [header]. apply Header_Get_Set.
    + unfold writeHeader, commit.
      cbn [resp set_logs set_cells set_resp committed setHeader body].
      change (committed (resp (entered r w))) with (committed (resp w)).
      rewrite Hfresh. reflexivity.
Qed.

Lemma project_only_non_get_is_500_witness :
  let r := req0 "DELETE" "/api/compose/projects/demo" in
  Path r = "/api/compose/projects/" +:+ "demo"
  /\ List.length (Split "demo" slash) = 1%nat
  /\ eqs (Method r) MethodGet = false
  /\ eqs (Method r) "OPTIONS" = false
  /\ committed (resp world0) = None
  /\ wireStatus (snd (probeServer connWriter r world0)) = Some StatusInternalServerError.
Proof.
  cbv zeta. repeat (split; [reflexivity|]).
  destruct (project_only_non_get_is_500 probeContainers probeImages probeCompose
              (probe "static") (req0 "DELETE" "/api/compose/projects/demo") "demo" world0
              eq_refl eq_refl eq_refl eq_refl eq_refl)
    as (_ & _ & H & S & _).
  unfold probeServer. rewrite H by (right; split; discriminate). exact S.
Defined.

(** C8 as stated fails for two kinds of request that are not GET: a
    preflight (OPTIONS) is answered 200 by [corsMiddleware] and reaches no
    handler, and a POST with the one-element name [..] is redirected to
    [/api/compose] by the mux. *)
Lemma project_only_non_get_not_always_500 :
  let preflight := req0 "OPTIONS" "/api/compose/projects/demo" in
  let dotdot := req0 "POST" "/api/compose/projects/.." in
  (eqs (Method preflight) MethodGet = false
   /\ List.length (Split "demo" slash) = 1%nat
   /\ wireStatus (snd (probeServer connWriter preflight world0)) = Some StatusOK
   /\ wireStatus (snd (probeServer connWriter preflight world0))
      <> Some StatusInternalServerError
   /\ logs (snd (probeServer connWriter preflight world0)) = [])
  /\ (eqs (Method dotdot) MethodGet = false
      /\ List.length (Split ".." slash) = 1%nat
      /\ Header_Get (header (resp (snd (probeServer connWriter dotdot world0)))) "Location"
         = "/api/compose"
      /\ body (resp (snd (probeServer connWriter dotdot world0))) = EmptyString
      /\ wireStatus (snd (probeServer connWriter dotdot world0))
         <> Some StatusInternalServerError).
Proof. vm_compute. repeat split; discriminate. Qed.

Lemma SetHeader_returns w k v s : fst (SetHeader w k v s) = Returned tt.
Proof. induction w; cbn; auto. Qed.

Lemma WriteHeader_returns w code s : fst (WriteHeader w code s) = Returned tt.
Proof. revert s. induction w; intros s; cbn; auto. apply IHw. Qed.

Lemma Write_returns w data s : fst (Write w data s) = Returned tt.
Proof. induction w; cbn; auto. Qed.

Lemma bind_returns {A B} (m : Go A) (k : A -> Go B) (a : A) s :
  fst (m s) = Returned a ->
  (m ≫= k) s = k a (snd (m s)).
Proof. unfold mbind, Go_bind. destruct (m s) as [o s']. cbn. now intros ->. Qed.

Lemma Error_returns w e code s : fst (Error w e code s) = Returned tt.
Proof.
  unfold Error.
  rewrite (bind_returns _ _ tt) by apply SetHeader_returns.
  rewrite (bind_returns _ _ tt) by apply SetHeader_returns.
  rewrite (bind_returns _ _ tt) by apply WriteHeader_returns.
  apply Write_returns.
Qed.

Lemma set_logs_nil s : set_logs (fun l => (l ++ [])%list) s = s.
Proof. destruct s. unfold set_logs. cbn. now rewrite app_nil_r. Qed.

(** Apart from requests with a single path element and a method other
    than GET, the route handler follows the documented table. *)
Lemma composeRoute_table (ch : ComposeHandler) (w : ResponseWriter) (r : Request) (s : World) :
  let parts := Split (TrimPrefix (Path r) "/compose/projects/") slash in
  (List.length parts = 1%nat -> eqs (Method r) MethodGet = true) ->
  composeRoute ch w r s
  = invoke ch (routeTable (Method r) parts) w r
      (set_logs (fun l => (l ++ routeLog (Method r) parts)%list) s).
Proof.
  cbv zeta. unfold composeRoute.
  set (path := TrimPrefix (Path r) "/compose/projects/").
  pose proof (Split_nonempty path slash) as Hne.
  assert (Hempty : eqs path EmptyString = true -> Split path slash = [EmptyString]).
  { intros H. apply eqs_eq in H. now rewrite H. }
  destruct (Split path slash) as [|p0 rest] eqn:Hsplit; [congruence|].
  clear Hne Hsplit. intros Hone.
  assert (Hno : (if eqs path EmptyString then mret true
                else p0' ← index (p0 :: rest) 0; mret (eqs p0' EmptyString)) s
               = (Returned (eqs p0 EmptyString), s)).
  { destruct (eqs path EmptyString); [|reflexivity].
    specialize (Hempty eq_refl). injection Hempty as -> ->. reflexivity. }
  clear Hempty.
  rewrite (bind_returns _ _ (eqs p0 EmptyString)) by now rewrite Hno.
  rewrite Hno. cbn [snd]. clear Hno.
  unfold routeTable, routeLog.
  rewrite (andb_comm (eqs p0 EmptyString)).
  destruct (eqs (Method r) MethodGet) eqn:Hget, (eqs p0 EmptyString) eqn:Hp0;
    cbn [andb]; try (now rewrite set_logs_nil).
  all: destruct rest as [|action more]; cbn [List.length Nat.eqb andb];
    try (now rewrite set_logs_nil); try (specialize (Hone eq_refl); discriminate).
  all: go_unfold; cbn -[eqs].
  all: destruct (eqs action "up"); [destruct (eqs (Method r) MethodPost); reflexivity|].
  all: destruct (eqs action "down"); [destruct (eqs (Method r) MethodPost); reflexivity|].
  all: destruct (eqs action "logs"); [rewrite ?Hget; reflexivity|].
  all: destruct (eqs action "services"); [|reflexivity].
  all: destruct more as [|p2 [|p3 [|p4 more]]]; cbn -[eqs]; rewrite ?Hget; try reflexivity.
  all: destruct (eqs p3 "scale" && eqs (Method r) MethodPost); reflexivity.
Qed.

(** C1 (the code departs from it): [POST /compose/projects/demo] (the
    path the API router hands over for [POST /api/compose/projects/demo])
    is a combination the routing table answers with 404, yet the route
    handler panics on [parts[1]] and writes no 404; the server answers
    500. *)
Theorem compose_route_misses_project_only_post
    (composeHandler : ComposeHandler) (w : ResponseWriter) (c : Context) (h : Header)
    (s : World) :
  let r := {| Method := MethodPost; Path := "/compose/projects/demo";
              reqHeader := h; ctx := c |} in
  routeTable (Method r) (Split (TrimPrefix (Path r) "/compose/projects/") slash) = NotFoundT
  /\ composeRoute composeHandler w r s = (Panicking outOfRange, s)
  /\ composeRoute composeHandler w r s <> NotFound w r s
  /\ wireStatus (snd (probeServer connWriter (req0 MethodPost "/api/compose/projects/demo") world0))
     = Some StatusInternalServerError.
Proof.
  cbv zeta. split; [reflexivity|]. split; [|split].
  - now apply (composeRoute_one_segment _ _ _ "demo").
  - rewrite (composeRoute_one_segment _ _ _ "demo") by reflexivity.
    unfold NotFound. intros H.
    pose proof (Error_returns w "404 page not found" StatusNotFound s) as E.
    rewrite <- H in E. discriminate.
  - vm_compute. reflexivity.
Qed.

Lemma Error_wrapped n e code s :
  Error (responseWriter connWriter n) e code s
  = (Returned tt, set_cells (fun m => <[n := code]> m) (failed e code s)).
Proof. reflexivity. Qed.

Lemma healthHandler_run n r s :
  healthHandler (responseWriter connWriter n) r s
  = (Returned tt, set_resp (healthResponse (clock s)) s).
Proof. reflexivity. Qed.

Lemma dockerInfoHandler_error n r s err :
  callErr (WithTimeout (ctx r) (clock s) (5 * Second)) s = Some err ->
  dockerInfoHandler (responseWriter connWriter n) r s
  = (Returned tt,
     set_cells (fun m => <[n := StatusInternalServerError]> m)
       (failed ("Failed to get Docker info: " +:+ err) StatusInternalServerError s)).
Proof.
  intros H. unfold dockerInfoHandler, client_Info. go_unfold. cbn -[Error callErr].
  rewrite H. apply Error_wrapped.
Qed.

Lemma callErr_unreachable c s e :
  daemonErr (engine s) = Some e -> exists err, callErr c s = Some err.
Proof. intros H. unfold callErr. destruct (ctxErr c (clock s)); eauto. Qed.

Section Endpoints.

Variable containerHandler : ContainerHandler.
Variable imageHandler : ImageHandler.
Variable composeHandler : ComposeHandler.
Variable fileServer : Handler.

Lemma mux_health w r s :
  Path r = "/health" ->
  ServeHTTP (mux containerHandler imageHandler composeHandler fileServer) w r s
  = healthHandler w r s.
Proof.
  intros HP. unfold ServeHTTP. rewrite HP.
  change (cleanPath "/health") with "/health".
  rewrite if_same. reflexivity.
Qed.

Lemma mux_docker_info w r s :
  Path r = "/api/docker/info" ->
  ServeHTTP (mux containerHandler imageHandler composeHandler fileServer) w r s
  = dockerInfoHandler w (WithPath r "/docker/info") s.
Proof.
  intros HP. unfold ServeHTTP at 1. rewrite HP.
  change (cleanPath "/api/docker/info") with "/api/docker/info".
  rewrite if_same. cbv zeta.
  change (mux_match _ "/api/docker/info")
    with (Some ("/api/", StripPrefix "/api"
                  (ServeHTTP (apiRouter containerHandler imageHandler composeHandler)))).
  cbn -[StripPrefix ServeHTTP].
  unfold StripPrefix. rewrite HP.
  change (TrimPrefix "/api/docker/info" "/api") with "/docker/info".
  cbn -[ServeHTTP WithPath].
  unfold ServeHTTP. cbn [Path WithPath Method].
  change (cleanPath "/docker/info") with "/docker/info".
  rewrite if_same. reflexivity.
Qed.

End Endpoints.

Lemma committed_entered r w : committed (resp (entered r w)) = committed (resp w).
Proof. reflexivity. Qed.

Lemma body_entered r w : body (resp (entered r w)) = body (resp w).
Proof. reflexivity. Qed.

Lemma status_errorResponse e code p :
  committed p = None -> fst <$> committed (errorResponse e code p) = Some code.
Proof. destruct p as [h [c|] b]; [discriminate|reflexivity]. Qed.

Lemma body_errorResponse e code p : body (errorResponse e code p) = body p +:+ e +:+ nl.
Proof. destruct p as [h [c|] b]; reflexivity. Qed.

Lemma status_healthResponse now p :
  committed p = None -> fst <$> committed (healthResponse now p) = Some StatusOK.
Proof. destruct p as [h [c|] b]; [discriminate|reflexivity]. Qed.

Lemma body_healthResponse now p :
  body (healthResponse now p) = body p +:+ encodeHealthResponse "healthy" (RFC3339 now).
Proof. destruct p as [h [c|] b]; reflexivity. Qed.

Lemma preflight_world w :
  committed (resp w) = None ->
  committed (resp (writeHeader StatusOK (set_resp corsHeaders w)))
  = Some (StatusOK, header (corsHeaders (resp w)))
  /\ body (resp (writeHeader StatusOK (set_resp corsHeaders w))) = body (resp w)
  /\ logs (writeHeader StatusOK (set_resp corsHeaders w)) = logs w.
Proof.
  intros H. unfold writeHeader, superfluous, commit.
  cbn [resp set_resp set_logs logs corsHeaders setHeader committed header body].
  rewrite H. cbn [committed body]. split; [reflexivity|]. split; [reflexivity|].
  apply app_nil_r.
Qed.

Lemma Done_delivered r w t :
  Done (ctx (delivered r w)) t = Done (ctx r) t || (clock w + 30 * Second <=? t).
Proof. reflexivity. Qed.

(** A call made by a handler on entry to the chain, with a timeout of its
    own, fails with the daemon's error when the caller's context is not
    done. *)
Lemma callErr_entered r w d p e :
  0 < d ->
  daemonErr (engine w) = Some e ->
  Done (ctx r) (clock w) = false ->
  callErr (WithTimeout (ctx (WithPath (delivered r w) p)) (clock (entered r w)) d)
    (entered r w) = Some e.
Proof.
  intros Hd He Hdone. unfold callErr, ctxErr, WithTimeout.
  cbn [Done ctx WithPath clock entered set_cells afterRequestID set_resp set_uuids engine].
  rewrite Done_delivered, Hdone.
  replace (clock w + 30 * Second <=? clock w) with false
    by (symmetry; apply Z.leb_gt; unfold Second; lia).
  replace (clock w + d <=? clock w) with false by (symmetry; apply Z.leb_gt; lia).
  exact He.
Qed.

(** C4 (as amended): while the daemon cannot be reached, [main] logs the
    failed ping and exits with status 1 before it listens.  A request for
    [/api/docker/info] is answered 500 with the error of the engine call
    (the daemon's own error when the caller's context is not done),
    unless it is a preflight, which [corsMiddleware] answers 200 with no
    body before any handler; a request for [/health] is answered 200, with
    status [healthy] when it is not a preflight, all the same. *)
Theorem engine_unreachable_surfaces
    (containerHandler : ContainerHandler) (imageHandler : ImageHandler)
    (composeHandler : ComposeHandler) (fileServer : Handler)
    (r : Request) (w : World) (e : string)
    (Hdown : daemonErr (engine w) = Some e)
    (Hfresh : committed (resp w) = None) :
  main None w
  = (Returned (Exited 1),
     set_logs (fun l => (l ++ [Printf "Failed to connect to Docker daemon: %v" [LStr e]])%list)
       (set_logs (fun l => (l ++ [Printf "Starting Docker management service..." []])%list) w))
  /\ (Path r = "/api/docker/info" ->
      exists w',
        handler containerHandler imageHandler composeHandler fileServer connWriter r w
        = (Returned tt, w')
        /\ if eqs (Method r) "OPTIONS"
           then wireStatus w' = Some StatusOK /\ body (resp w') = body (resp w)
           else wireStatus w' = Some StatusInternalServerError
                /\ exists err,
                     body (resp w')
                     = body (resp w) +:+ ("Failed to get Docker info: " +:+ err) +:+ nl
                     /\ (Done (ctx r) (clock w) = false -> err = e))
  /\ (Path r = "/health" ->
      exists w',
        handler containerHandler imageHandler composeHandler fileServer connWriter r w
        = (Returned tt, w')
        /\ wireStatus w' = Some StatusOK
        /\ body (resp w')
           = if eqs (Method r) "OPTIONS" then body (resp w)
             else body (resp w) +:+ healthBody w).
Proof.
  split; [|split].
  - assert (Hping : callErr (WithTimeout Background (clock w) (10 * Second))
                      (set_logs (fun l => (l ++ [Printf "Starting Docker management service..." []])%list) w)
                    = Some e).
    { unfold callErr, ctxErr, WithTimeout. cbn [Done clock set_logs engine orb].
      replace (clock w + 10 * Second <=? clock w) with false
        by (symmetry; apply Z.leb_gt; unfold Second; lia).
      exact Hdown. }
    unfold main, log_Println, log_Fatalf, client_Ping. go_unfold.
    cbn -[callErr WithTimeout]. now rewrite Hping.
  - intros HP. unfold handler. destruct (eqs (Method r) "OPTIONS") eqn:Hopt.
    + eexists. rewrite chain_preflight by assumption. split; [reflexivity|].
      destruct (preflight_world w Hfresh) as (Hc & Hb & _).
      unfold wireStatus. rewrite Hc. split; [reflexivity|exact Hb].
    + destruct (callErr_unreachable
                  (WithTimeout (ctx (WithPath (delivered r w) "/docker/info"))
                     (clock (entered r w)) (5 * Second)) (entered r w) e Hdown) as [err Herr].
      eexists. rewrite chain_run by assumption.
      rewrite mux_docker_info by exact HP. unfold chainWriter.
      rewrite (dockerInfoHandler_error _ _ _ err Herr).
      split; [reflexivity|]. split.
      * unfold wireStatus, failed. cbn [resp set_logs set_cells set_resp].
        apply status_errorResponse. exact Hfresh.
      * exists err. split.
        -- unfold failed. cbn [resp set_logs set_cells set_resp].
           now rewrite body_errorResponse.
        -- intros Hdone.
           rewrite (callErr_entered r w (5 * Second) "/docker/info" e) in Herr
             by (reflexivity || assumption).
           congruence.
  - intros HP. unfold handler. destruct (eqs (Method r) "OPTIONS") eqn:Hopt.
    + eexists. rewrite chain_preflight by assumption. split; [reflexivity|].
      destruct (preflight_world w Hfresh) as (Hc & Hb & _).
      unfold wireStatus. rewrite Hc. split; [reflexivity|exact Hb].
    + eexists. rewrite chain_run by assumption.
      rewrite mux_health by exact HP. unfold chainWriter. rewrite healthHandler_run.
      split; [reflexivity|]. split.
      * unfold wireStatus. cbn [resp set_logs set_cells set_resp].
        apply status_healthResponse. exact Hfresh.
      * cbn [resp set_logs set_cells set_resp].
        now rewrite body_healthResponse.
Qed.

Lemma engine_unreachable_surfaces_witness :
  daemonErr (engine worldDown) = Some "Cannot connect to the Docker daemon"
  /\ committed (resp worldDown) = None
  /\ fst (main None worldDown) = Returned (Exited 1).
Proof.
  repeat (split; [reflexivity|]).
  destruct (engine_unreachable_surfaces probeContainers probeImages probeCompose
              (probe "static") (req0 "GET" "/api/docker/info") worldDown
              "Cannot connect to the Docker daemon" eq_refl eq_refl) as (H & _).
  now rewrite H.
Defined.

(** C4 as stated fails: with the daemon out of reach, [GET /health] still
    reports [healthy] with status 200, and a preflight for
    [/api/docker/info] is answered 200. *)
Lemma healthy_while_engine_unreachable :
  daemonErr (engine worldDown) <> None
  /\ wireStatus (snd (probeServer connWriter (req0 "GET" "/health") worldDown)) = Some StatusOK
  /\ body (resp (snd (probeServer connWriter (req0 "GET" "/health") worldDown)))
     = encodeHealthResponse "healthy" "2023-11-14T22:13:20Z"
  /\ wireStatus (snd (probeServer connWriter (req0 "OPTIONS" "/api/docker/info") worldDown))
     = Some StatusOK.
Proof. split; [discriminate|]. vm_compute. repeat split. Qed.

(** ** The orchestrator *)

Module OrchestratorFacts.

Import Orchestrator.

Local Open Scope nat_scope.

Section Sweeps.

Local Open Scope list_scope.

Lemma filter_ext_in {A} (P Q : A -> Prop) `{!forall x, Decision (P x)} `{!forall x, Decision (Q x)}
    (l : list A) :
  (forall x, x ∈ l -> P x <-> Q x) -> filter P l = filter Q l.
Proof.
  induction l as [|a l IH]; intros Hall; [reflexivity|].
  rewrite !filter_cons. rewrite IH by (intros x Hx; apply Hall; now right).
  destruct (decide (P a)) as [HP|HP], (decide (Q a)) as [HQ|HQ]; try reflexivity.
  - exfalso. apply HQ, Hall; [left|assumption].
  - exfalso. apply HP, Hall; [left|assumption].
Qed.

Lemma filter_all {A} (P : A -> Prop) `{!forall x, Decision (P x)} (l : list A) :
  (forall x, x ∈ l -> P x) -> filter P l = l.
Proof.
  induction l as [|a l IH]; intros Hall; [reflexivity|].
  rewrite filter_cons_True by (apply Hall; left).
  f_equal. apply IH. intros x Hx. apply Hall. now right.
Qed.

Lemma filter_none {A} (P : A -> Prop) `{!forall x, Decision (P x)} (l : list A) :
  (forall x, x ∈ l -> ~ P x) -> filter P l = [].
Proof.
  induction l as [|a l IH]; intros Hall; [reflexivity|].
  rewrite filter_cons_False by (apply Hall; left).
  apply IH. intros x Hx. apply Hall. now right.
Qed.

Lemma attached_delete u e n :
  kind u <> Container -> attached (delete u e) n <-> attached e n.
Proof.
  intros Hu. unfold attached, delete. cbn [resources].
  rewrite !Exists_exists. split.
  - intros (c & Hc & H). apply list_elem_of_filter in Hc as [_ Hc]. eauto.
  - intros (c & Hc & Hk & Hp). exists c. split; [|auto].
    apply list_elem_of_filter. split; [|assumption]. intros ->. contradiction.
Qed.

(** Within one phase of removals (all victims of one kind) whether the
    engine lets a victim go does not change as other victims go. *)
Lemma removable_delete u e v :
  kind u = kind v -> removable (delete u e) v <-> removable e v.
Proof.
  intros Hk. unfold removable, stuck. cbn [refused delete].
  split; intros [Hs Ha]; (split; [assumption|]); intros Hn.
  - rewrite <- (attached_delete u); [auto|]. rewrite Hk, Hn. discriminate.
  - rewrite (attached_delete u); [auto|]. rewrite Hk, Hn. discriminate.
Qed.

Lemma removeEach_phase k vs e res :
  Forall (fun v => kind v = k) vs ->
  removeEach vs e res = (swept vs e, noted vs e res).
Proof.
  intros Hk. revert e res. induction Hk as [|v vs Hv Hvs IH]; intros e res.
  - cbn. unfold swept, noted. cbn. rewrite !app_nil_r.
    rewrite filter_all; [now destruct e, res|].
    intros x _ [H _]. inversion H.
  - cbn [removeEach]. unfold remove. destruct (decide (removable e v)) as [Hr|Hr].
    + rewrite IH. f_equal.
      * unfold swept, delete. cbn [resources refused nextId]. f_equal.
        rewrite list_filter_filter. apply filter_ext_in. intros x Hx.
        split.
        -- intros [H1 H2] [H3 H4]. apply elem_of_cons in H3 as [->|H3]; [congruence|].
           apply H1. split; [assumption|]. apply removable_delete; [|assumption].
           rewrite Forall_forall in Hvs. rewrite Hv. symmetry. now apply Hvs.
        -- intros H. split.
           ++ intros [H1 H2]. apply H. split; [now right|].
              apply (removable_delete v); [|assumption].
              rewrite Forall_forall in Hvs. rewrite Hv. symmetry. now apply Hvs.
           ++ intros ->. apply H. split; [now left|assumption].
      * unfold noted, noteAffected. cbn [rejected affected failed]. f_equal.
        -- rewrite filter_cons_True by assumption. rewrite <- app_assoc. cbn. f_equal. f_equal.
           apply filter_ext_in. intros x Hx. apply removable_delete.
           rewrite Forall_forall in Hvs. rewrite Hv. symmetry. now apply Hvs.
        -- rewrite filter_cons_False by tauto. f_equal.
           apply filter_ext_in. intros x Hx. rewrite removable_delete; [tauto|].
           rewrite Forall_forall in Hvs. rewrite Hv. symmetry. now apply Hvs.
    + rewrite IH. f_equal.
      * unfold swept. f_equal. apply filter_ext_in. intros x Hx. split.
        -- intros H [H3 H4]. apply elem_of_cons in H3 as [->|H3]; [contradiction|]. tauto.
        -- intros H [H1 H2]. apply H. split; [now right|assumption].
      * unfold noted, noteFailed. cbn [rejected affected failed]. f_equal.
        -- now rewrite filter_cons_False by assumption.
        -- rewrite filter_cons_True by assumption. now rewrite <- app_assoc.
Qed.

Lemma labeled_kind p k e : Forall (fun v => kind v = k) (labeled p k e).
Proof. apply Forall_forall. intros x Hx. now apply list_elem_of_filter in Hx as [[? ?] _]. Qed.

Lemma elem_of_labeled p k e x :
  x ∈ labeled p k e <-> kind x = k /\ project x = p /\ x ∈ resources e.
Proof. unfold labeled. rewrite list_elem_of_filter. tauto. Qed.

Lemma elem_of_swept vs e x :
  x ∈ resources (swept vs e) <-> x ∈ resources e /\ ~ (x ∈ vs /\ removable e x).
Proof. unfold swept. cbn [resources]. rewrite list_elem_of_filter. tauto. Qed.

Lemma attached_swept vs e n :
  Forall (fun v => kind v <> Container) vs -> attached (swept vs e) n <-> attached e n.
Proof.
  intros Hvs. unfold attached. rewrite !Exists_exists. split.
  - intros (c & Hc & H). apply elem_of_swept in Hc as [Hc _]. eauto.
  - intros (c & Hc & Hk & Hp). exists c. split; [|auto].
    apply elem_of_swept. split; [assumption|]. intros [Hin _].
    rewrite Forall_forall in Hvs. now apply (Hvs c).
Qed.

Lemma removable_swept vs e x :
  Forall (fun v => kind v <> Container) vs \/ kind x <> Network ->
  removable (swept vs e) x <-> removable e x.
Proof.
  intros Hside. unfold removable, stuck. cbn [refused swept].
  destruct Hside as [Hvs|Hx].
  - pose proof (attached_swept vs e x Hvs) as Ha. tauto.
  - tauto.
Qed.

Lemma swept_settled k p e : settled k p e -> swept (labeled p k e) e = e.
Proof.
  intros H. unfold swept. destruct e as [rs rf ni]. cbn [resources refused nextId]. f_equal.
  apply filter_all. intros x Hx [Hl Hr]. apply elem_of_labeled in Hl as (Hk & Hp & _).
  now apply (H x).
Qed.

Lemma side_condition p k e x :
  kind x = k ->
  Forall (fun v => kind v <> Container) (labeled p k e) \/ kind x <> Network.
Proof.
  intros Hk. destruct k.
  - right. rewrite Hk. discriminate.
  - left. apply Forall_forall. intros v Hv. apply elem_of_labeled in Hv as (-> & _). discriminate.
  - right. rewrite Hk. discriminate.
Qed.

Lemma swept_settles k p e : settled k p (swept (labeled p k e) e).
Proof.
  intros x Hx Hk Hp Hr.
  apply removable_swept in Hr; [|now apply side_condition].
  apply elem_of_swept in Hx as [Hx Hn]. apply Hn. split; [|assumption].
  now apply elem_of_labeled.
Qed.

Lemma settled_swept k p vs e :
  Forall (fun v => kind v <> Container) vs ->
  settled k p e -> settled k p (swept vs e).
Proof.
  intros Hvs H x Hx Hk Hp Hr.
  apply removable_swept in Hr; [|now left].
  apply elem_of_swept in Hx as [Hx _]. now apply (H x).
Qed.

Lemma labeled_not_container p k e :
  k <> Container -> Forall (fun v => kind v <> Container) (labeled p k e).
Proof.
  intros Hk. apply Forall_forall. intros v Hv.
  apply elem_of_labeled in Hv as (-> & _). assumption.
Qed.

Lemma Down_run p keepVolumes e :
  Down p keepVolumes e
  = if keepVolumes then (afterNetworks p e, resultNetworks p e)
    else (afterVolumes p e,
          noted (labeled p Volume (afterNetworks p e)) (afterNetworks p e)
            (resultNetworks p e)).
Proof.
  unfold Down.
  rewrite (removeEach_phase Container) by apply labeled_kind.
  rewrite (removeEach_phase Network) by apply labeled_kind.
  destruct keepVolumes; [reflexivity|].
  now rewrite (removeEach_phase Volume) by apply labeled_kind.
Qed.

Lemma Down_state_settled p keepVolumes e :
  let e1 := fst (Down p keepVolumes e) in
  settled Container p e1 /\ settled Network p e1
  /\ (keepVolumes = false -> settled Volume p e1).
Proof.
  cbv zeta. rewrite Down_run.
  assert (HC : settled Container p (afterNetworks p e)).
  { apply settled_swept; [now apply labeled_not_container|]. apply swept_settles. }
  assert (HN : settled Network p (afterNetworks p e)) by apply swept_settles.
  destruct keepVolumes; cbn [fst].
  - split; [assumption|]. split; [assumption|discriminate].
  - split; [|split].
    + apply settled_swept; [now apply labeled_not_container|assumption].
    + apply settled_swept; [now apply labeled_not_container|assumption].
    + intros _. apply swept_settles.
Qed.

(** The state after [Down] is a fixed point of [Down], whatever the
    engine refuses. *)
Lemma Down_state_idempotent p keepVolumes e :
  fst (Down p keepVolumes (fst (Down p keepVolumes e))) = fst (Down p keepVolumes e).
Proof.
  destruct (Down_state_settled p keepVolumes e) as (HC & HN & HV).
  set (e1 := fst (Down p keepVolumes e)) in *.
  rewrite Down_run.
  assert (EA : afterContainers p e1 = e1) by now apply swept_settled.
  assert (EB : afterNetworks p e1 = e1).
  { unfold afterNetworks. rewrite EA. now apply swept_settled. }
  destruct keepVolumes; cbn [fst]; [assumption|].
  unfold afterVolumes. rewrite EB. apply swept_settled. now apply HV.
Qed.

Lemma labeled_nil p k e :
  labeled p k e = [] <-> (forall x, x ∈ resources e -> kind x = k -> project x <> p).
Proof.
  split.
  - intros H x Hx Hk Hp.
    assert (Hin : x ∈ labeled p k e) by now apply elem_of_labeled.
    rewrite H in Hin. inversion Hin.
  - intros H. apply filter_none. intros x Hx [Hk Hp]. now apply (H x).
Qed.

(** Nothing to remove: [Down] does nothing and reports success with no
    affected resource. *)
Lemma Down_nothing p keepVolumes e :
  labeled p Container e = [] -> labeled p Network e = [] ->
  (keepVolumes = false -> labeled p Volume e = []) ->
  Down p keepVolumes e = (e, applied).
Proof.
  intros HC HN HV. unfold Down. rewrite HC. cbn [removeEach]. rewrite HN. cbn [removeEach].
  destruct keepVolumes; [reflexivity|]. now rewrite HV.
Qed.

Lemma labeled_swept_nil p k vs e : labeled p k e = [] -> labeled p k (swept vs e) = [].
Proof.
  rewrite !labeled_nil. intros H x Hx. apply elem_of_swept in Hx as [Hx _]. now apply H.
Qed.

Lemma swept_clears p k e :
  (forall x, x ∈ labeled p k e -> removable e x) ->
  labeled p k (swept (labeled p k e) e) = [].
Proof.
  intros H. apply labeled_nil. intros x Hx Hk Hp.
  apply elem_of_swept in Hx as [Hx Hn]. apply Hn.
  assert (Hin : x ∈ labeled p k e) by now apply elem_of_labeled.
  split; [assumption|now apply H].
Qed.

Section Compliant.

Variables (p : string) (e : EngineState).

(** The engine refuses the removal of no resource labeled to [p]. *)
Hypothesis compliant : forall x, x ∈ resources e -> project x = p -> ~ stuck e x.

Lemma containers_go x : x ∈ labeled p Container e -> removable e x.
Proof.
  intros Hx. apply elem_of_labeled in Hx as (Hk & Hp & Hx). split.
  - now apply compliant.
  - rewrite Hk. discriminate.
Qed.

Lemma containers_gone : labeled p Container (afterContainers p e) = [].
Proof. apply swept_clears, containers_go. Qed.

Lemma networks_go x :
  x ∈ labeled p Network (afterContainers p e) -> removable (afterContainers p e) x.
Proof.
  intros Hx. apply elem_of_labeled in Hx as (Hk & Hp & Hx).
  apply elem_of_swept in Hx as [Hx _]. split.
  - now apply compliant.
  - intros _ Ha. unfold attached in Ha. apply Exists_exists in Ha as (c & Hc & Hkc & Hpc).
    pose proof containers_gone as Hgone. rewrite labeled_nil in Hgone.
    apply (Hgone c Hc Hkc). congruence.
Qed.

Lemma networks_gone : labeled p Network (afterNetworks p e) = [].
Proof. apply swept_clears, networks_go. Qed.

Lemma volumes_go x :
  x ∈ labeled p Volume (afterNetworks p e) -> removable (afterNetworks p e) x.
Proof.
  intros Hx. apply elem_of_labeled in Hx as (Hk & Hp & Hx).
  apply elem_of_swept in Hx as [Hx _]. apply elem_of_swept in Hx as [Hx _]. split.
  - now apply compliant.
  - rewrite Hk. discriminate.
Qed.

Lemma volumes_gone : labeled p Volume (afterVolumes p e) = [].
Proof. apply swept_clears, volumes_go. Qed.

Lemma Down_succeeds keepVolumes : success (snd (Down p keepVolumes e)).
Proof.
  rewrite Down_run.
  assert (HB : success (resultNetworks p e)).
  { split; [reflexivity|]. unfold resultNetworks, noted. cbn [failed applied].
    rewrite (filter_none (fun v => ~ removable e v))
      by (intros x Hx Hn; apply Hn; now apply containers_go).
    rewrite (filter_none (fun v => ~ removable (afterContainers p e) v))
      by (intros x Hx Hn; apply Hn; now apply networks_go).
    reflexivity. }
  destruct keepVolumes; cbn [snd]; [assumption|].
  destruct HB as [HB1 HB2]. split; [assumption|]. unfold noted. cbn [failed].
  rewrite HB2.
  now rewrite (filter_none (fun v => ~ removable (afterNetworks p e) v))
    by (intros x Hx Hn; apply Hn; now apply volumes_go).
Qed.

Lemma Down_again keepVolumes :
  Down p keepVolumes (fst (Down p keepVolumes e)) = (fst (Down p keepVolumes e), applied).
Proof.
  apply Down_nothing; rewrite Down_run; destruct keepVolumes; cbn [fst];
    try discriminate; try intros _.
  - apply labeled_swept_nil, containers_gone.
  - apply labeled_swept_nil, labeled_swept_nil, containers_gone.
  - apply networks_gone.
  - apply labeled_swept_nil, networks_gone.
  - apply volumes_gone.
Qed.

End Compliant.

(** C6: with an engine that refuses the removal of none of the project's
    resources, [Down] on a project that matches no labeled resource
    returns success with no affected resource and leaves the engine as it
    is; and two [Down] calls in a row leave the engine in the state the
    first one left it in, the first succeeding and the second succeeding
    with no affected resource. *)
Theorem Down_is_idempotent (p : string) (keepVolumes : bool) (e : EngineState)
    (compliant : forall x, x ∈ resources e -> project x = p -> ~ stuck e x) :
  ((forall x, x ∈ resources e -> project x <> p) -> Down p keepVolumes e = (e, applied))
  /\ fst (Down p keepVolumes (fst (Down p keepVolumes e))) = fst (Down p keepVolumes e)
  /\ success (snd (Down p keepVolumes e))
  /\ snd (Down p keepVolumes (fst (Down p keepVolumes e))) = applied.
Proof.
  split; [|split; [|split]].
  - intros Hnone. apply Down_nothing; try intros _; apply labeled_nil; auto.
  - apply Down_state_idempotent.
  - now apply Down_succeeds.
  - now rewrite Down_again.
Qed.

#[local] Instance higherFirst_trans : Transitive higherFirst.
Proof. intros a b c. unfold higherFirst. lia. Qed.

#[local] Instance higherFirst_total : Total higherFirst.
Proof. intros a b. unfold higherFirst. lia. Qed.

Lemma elem_of_instances p s e x :
  x ∈ instances p s e
  <-> (kind x = Container /\ project x = p /\ service x = Some s /\ is_Some (index x))
      /\ x ∈ resources e.
Proof. unfold instances. now rewrite list_elem_of_filter. Qed.

Lemma instances_swept p s vs e :
  (forall x, x ∈ vs -> removable e x) ->
  instances p s (swept vs e) = filter (fun x => x ∉ vs) (instances p s e).
Proof.
  intros Hvs. unfold instances, swept. cbn [resources].
  rewrite !list_filter_filter. apply filter_ext_in. intros x Hx.
  split.
  - intros [H1 H2]. split; [|assumption]. intros Hin. apply H2. auto.
  - intros [H1 H2]. split; [assumption|]. intros [Hin _]. contradiction.
Qed.

Lemma filter_not_in_app {A} `{EqDecision A} (front back : list A) :
  NoDup (front ++ back) -> filter (fun x => x ∉ front) (front ++ back) = back.
Proof.
  intros Hnd. apply NoDup_app in Hnd as (_ & Hdisj & _).
  rewrite filter_app.
  rewrite (filter_none (fun x => x ∉ front) front) by (intros x Hx Hn; contradiction).
  cbn. apply filter_all. intros x Hx Hin. now apply (Hdisj x).
Qed.

Lemma NoDup_fmap_inj {A B} (f : A -> B) (l : list A) x y :
  NoDup (f <$> l) -> x ∈ l -> y ∈ l -> f x = f y -> x = y.
Proof.
  induction l as [|a l IH]; intros Hnd Hx Hy Hf; [inversion Hx|].
  rewrite fmap_cons in Hnd. apply NoDup_cons in Hnd as [Ha Hnd].
  apply elem_of_cons in Hx as [->|Hx], Hy as [->|Hy]; auto.
  - exfalso. apply Ha. rewrite Hf. now apply list_elem_of_fmap_2.
  - exfalso. apply Ha. rewrite <- Hf. now apply list_elem_of_fmap_2.
Qed.

Lemma filter_not_in_take {A} `{EqDecision A} (l : list A) (n : nat) :
  NoDup l -> filter (fun x => x ∉ take n l) l = drop n l.
Proof.
  pose proof (filter_not_in_app (take n l) (drop n l)) as Happ.
  rewrite take_drop in Happ. exact Happ.
Qed.

(** C7: for a service with [N] live instances of pairwise distinct index
    (invariant I2) that the engine lets go, [Scale] to
    [desiredReplicas < N] succeeds, removes exactly [N - desiredReplicas]
    instances, and every instance it removes has a higher index than every
    instance it leaves: the survivors are the [desiredReplicas]
    lowest-indexed instances, and no other resource is touched. *)
Theorem Scale_down_keeps_lowest (p s : string) (desiredReplicas : nat) (e : EngineState)
    (Hless : (desiredReplicas < List.length (instances p s e))%nat)
    (I2 : NoDup (idx <$> instances p s e))
    (compliant : forall x, x ∈ instances p s e -> ~ stuck e x) :
  let live := instances p s e in
  let e' := fst (Scale p s desiredReplicas e) in
  let r := snd (Scale p s desiredReplicas e) in
  success r
  /\ List.length (affected r) = (List.length live - desiredReplicas)%nat
  /\ List.length (instances p s e') = desiredReplicas
  /\ (forall x y, x ∈ instances p s e' -> y ∈ affected r -> (idx x < idx y)%nat)
  /\ instances p s e' ++ affected r ≡ₚ live
  /\ (forall x, x ∈ resources e' <-> x ∈ resources e /\ x ∉ affected r).
Proof.
  cbv zeta. unfold Scale.
  destruct (decide (desiredReplicas < List.length (instances p s e))%nat) as [_|]; [|contradiction].
  set (live := instances p s e) in *.
  set (sorted := merge_sort higherFirst live).
  set (n := (List.length live - desiredReplicas)%nat).
  assert (Hperm : sorted ≡ₚ live) by apply merge_sort_Permutation.
  assert (Hsorted : StronglySorted higherFirst sorted)
    by exact (StronglySorted_merge_sort higherFirst live).
  assert (Hlen : List.length sorted = List.length live) by now rewrite Hperm.
  assert (Hsplit : sorted = take n sorted ++ drop n sorted) by now rewrite take_drop.
  assert (Hvictims : forall x, x ∈ take n sorted -> x ∈ live).
  { intros x Hx. rewrite <- Hperm, Hsplit. apply elem_of_app. now left. }
  assert (Hgo : forall x, x ∈ take n sorted -> removable e x).
  { intros x Hx. split; [now apply compliant, Hvictims|].
    apply Hvictims, elem_of_instances in Hx as [(Hk & _) _]. rewrite Hk. discriminate. }
  rewrite (removeEach_phase Container).
  2:{ apply Forall_forall. intros x Hx.
      now apply Hvictims, elem_of_instances in Hx as [(Hk & _) _]. }
  cbn [fst snd].
  assert (Haff : affected (noted (take n sorted) e applied) = take n sorted).
  { unfold noted. cbn. now apply filter_all. }
  assert (Hnd : NoDup (take n sorted ++ drop n sorted)).
  { rewrite <- Hsplit, Hperm. now apply (NoDup_fmap_1 idx). }
  assert (Hrest : instances p s (swept (take n sorted) e) ≡ₚ drop n sorted).
  { rewrite instances_swept by assumption. fold live. rewrite <- Hperm.
    rewrite filter_not_in_take; [reflexivity|].
    rewrite Hperm. now apply (NoDup_fmap_1 idx). }
  rewrite Haff. split; [|split; [|split; [|split; [|split]]]].
  - split; [reflexivity|]. unfold noted. cbn.
    apply filter_none. intros x Hx Hn. apply Hn. now apply Hgo.
  - rewrite length_take. lia.
  - rewrite Hrest, length_drop. lia.
  - intros x y Hx Hy. rewrite Hrest in Hx.
    assert (Hle : higherFirst y x).
    { rewrite Hsplit in Hsorted.
      now apply (StronglySorted_app_1_elem_of _ _ _ _ _ Hsorted). }
    unfold higherFirst in Hle.
    assert (Hne : idx x <> idx y).
    { intros Heq.
      assert (Hxy : x = y).
      { apply (NoDup_fmap_inj idx live); auto.
        rewrite <- Hperm, Hsplit. apply elem_of_app. now right. }
      apply NoDup_app in Hnd as (_ & Hdisj & _). apply (Hdisj y Hy). now rewrite <- Hxy. }
    lia.
  - rewrite Hrest. rewrite (Permutation_app_comm (drop n sorted)).
    now rewrite <- Hsplit.
  - intros x. rewrite elem_of_swept. split.
    + intros [Hx Hn]. split; [assumption|]. intros Hin. apply Hn. auto.
    + intros [Hx Hn]. split; [assumption|]. intros [Hin _]. contradiction.
Qed.

End Sweeps.

Lemma demoEngine_compliant (x : Resource) : ~ stuck demoEngine x.
Proof. unfold stuck. cbn. apply not_elem_of_nil. Qed.

(** The example of the specification: from the indices 0, 1, 2, 3,
    [Scale] to 2 removes 3 and 2 and leaves 0 and 1. *)
Lemma Scale_down_keeps_lowest_witness :
  (2 < List.length (instances "demo" "web" demoEngine))%nat
  /\ NoDup (idx <$> instances "demo" "web" demoEngine)
  /\ (idx <$> affected (snd (Scale "demo" "web" 2 demoEngine))) = [3; 2]%nat
  /\ forall x, x ∈ instances "demo" "web" (fst (Scale "demo" "web" 2 demoEngine)) ->
              (idx x < 2)%nat.
Proof.
  assert (H1 : (2 < List.length (instances "demo" "web" demoEngine))%nat)
    by (vm_compute; lia).
  assert (H2 : NoDup (idx <$> instances "demo" "web" demoEngine))
    by (apply (bool_decide_unpack _); vm_compute; exact I).
  split; [exact H1|]. split; [exact H2|]. split; [vm_compute; reflexivity|].
  intros x Hx.
  destruct (Scale_down_keeps_lowest "demo" "web" 2 demoEngine H1 H2
              (fun y _ => demoEngine_compliant y)) as (_ & _ & _ & Hlow & _).
  apply (Hlow x (instance 2 "c2") Hx).
  vm_compute. apply list_elem_of_In. right. left. reflexivity.
Defined.

(** [Down] twice on the example project. *)
Lemma Down_is_idempotent_witness :
  (forall x, x ∈ resources demoEngine -> project x = "demo" -> ~ stuck demoEngine x)
  /\ Down "demo" false (fst (Down "demo" false demoEngine))
     = (fst (Down "demo" false demoEngine), applied)
  /\ resources (fst (Down "demo" false demoEngine)) = [].
Proof.
  split; [intros x _ _; apply demoEngine_compliant|].
  destruct (Down_is_idempotent "demo" false demoEngine
              (fun x _ _ => demoEngine_compliant x)) as (_ & Hstate & _ & Hres).
  split; [|vm_compute; reflexivity].
  rewrite <- Hstate at 2. rewrite <- Hres. now destruct (Down _ _ _).
Defined.

End OrchestratorFacts.

(** ** The stores *)

Module StoresFacts.

Import Stores.

Local Open Scope list_scope.

Lemma add_take (error : DockerError) (errors : list DockerError) :
  add error (take 10 errors) = take 10 (error :: errors).
Proof. unfold add. cbn [take]. f_equal. rewrite take_take. f_equal. Qed.

Lemma errorsAfter_from (ops : list ErrorOp) (acc : list DockerError) :
  fold_left applyOp ops (take 10 acc) = take 10 (fold_left sinceClear ops acc).
Proof.
  revert acc. induction ops as [|op ops IH]; intros acc; [reflexivity|].
  cbn [fold_left]. destruct op as [error|]; cbn [applyOp sinceClear].
  - rewrite add_take. apply IH.
  - apply (IH []).
Qed.

(** C9: after any sequence of [add] and [clear] calls the error store
    holds at most 10 errors, namely the latest errors added since the last
    [clear], newest first; one more [add] puts the new error in front and
    keeps the first 10 entries, and [clear] leaves the empty list. *)
Theorem errorStore_bounded_newest_first (ops : list ErrorOp) :
  (List.length (errorsAfter ops) <= 10)%nat
  /\ errorsAfter ops = take 10 (addedSinceClear ops)
  /\ (forall error, errorsAfter (ops ++ [Add error]) = take 10 (error :: errorsAfter ops))
  /\ errorsAfter (ops ++ [Clear]) = [].
Proof.
  assert (H : errorsAfter ops = take 10 (addedSinceClear ops))
    by apply (errorsAfter_from ops []).
  split; [|split; [|split]].
  - rewrite H, length_take. lia.
  - exact H.
  - intros error. unfold errorsAfter. now rewrite fold_left_app.
  - unfold errorsAfter. now rewrite fold_left_app.
Qed.

(** C10: when the fetch of a [refresh] rejects, [data] and [lastUpdated]
    are what they were (in the state the rejection finds, and so in the
    state the [refresh] started from when nothing else ran meanwhile),
    [loading] is false, and the error store received one error, of code
    [FETCH_ERROR]; when the fetch resolves, [data] is the fetched value,
    [lastUpdated] the current time, and the error store is as it was. *)
Theorem refresh_rejected_keeps_data {T : Type} (now : Z) (pg : @Page T)
    (error : Thrown) (d : T) :
  (data (fst (refreshSettle now (Rejected error) pg)) = data (fst pg)
   /\ lastUpdated (fst (refreshSettle now (Rejected error) pg)) = lastUpdated (fst pg)
   /\ loading (fst (refreshSettle now (Rejected error) pg)) = false
   /\ snd (refreshSettle now (Rejected error) pg) = take 10 (fetchError now error :: snd pg))
  /\ (data (fst (refresh now (Rejected error) pg)) = data (fst pg)
      /\ lastUpdated (fst (refresh now (Rejected error) pg)) = lastUpdated (fst pg)
      /\ loading (fst (refresh now (Rejected error) pg)) = false
      /\ snd (refresh now (Rejected error) pg) = take 10 (fetchError now error :: snd pg))
  /\ code (fetchError now error) = "FETCH_ERROR"
  /\ refresh now (Resolved d) pg
     = ({| data := d; loading := false; lastUpdated := Some now |}, snd pg).
Proof. destruct pg as [s errs]. repeat split. Qed.

End StoresFacts.

(** ** [main.go]: routes, middleware, handlers and start-up on any request *)

Lemma index_in_range parts i s :
  parts !! i = Some s -> forall w, index parts i w = (Returned s, w).
Proof. intros H w. unfold index. now rewrite H. Qed.

(** X1: [containersRoute] reads [parts[1]] only behind its length
    check, so it never panics on the index: whatever the path, it hands
    the request to one of the six container handlers or to [NotFound],
    and which one does not depend on the method or on the state of the
    server. *)
Theorem containersRoute_guards_its_index (ch : ContainerHandler) (w : ResponseWriter)
    (r : Request) :
  exists h, h ∈ containerTargets ch
    /\ forall m s, containersRoute ch w (WithMethod r m) s = h w (WithMethod r m) s.
Proof.
  unfold containersRoute. cbn [Path WithMethod].
  destruct (Split (TrimPrefix (Path r) "/containers/") slash) as [|p0 [|action rest]] eqn:Hs.
  - exists (GetContainer ch). split; [set_solver|]. reflexivity.
  - exists (GetContainer ch). split; [unfold containerTargets; set_solver|]. reflexivity.
  - cbn [List.length Nat.ltb Nat.leb].
    destruct (eqs action "start") eqn:E1;
      [exists (StartContainer ch); split; [unfold containerTargets; set_solver|];
       intros m s; go_unfold; cbn; now rewrite E1|].
    destruct (eqs action "stop") eqn:E2;
      [exists (StopContainer ch); split; [unfold containerTargets; set_solver|];
       intros m s; go_unfold; cbn; now rewrite E1, E2|].
    destruct (eqs action "restart") eqn:E3;
      [exists (RestartContainer ch); split; [unfold containerTargets; set_solver|];
       intros m s; go_unfold; cbn; now rewrite E1, E2, E3|].
    destruct (eqs action "logs") eqn:E4;
      [exists (GetContainerLogs ch); split; [unfold containerTargets; set_solver|];
       intros m s; go_unfold; cbn; now rewrite E1, E2, E3, E4|].
    destruct (eqs action "stats") eqn:E5;
      [exists (GetContainerStats ch); split; [unfold containerTargets; set_solver|];
       intros m s; go_unfold; cbn; now rewrite E1, E2, E3, E4, E5|].
    exists NotFound. split; [unfold containerTargets; set_solver|].
    intros m s; go_unfold; cbn; now rewrite E1, E2, E3, E4, E5.
Qed.

Lemma canonical_cors_keys :
  CanonicalMIMEHeaderKey "Access-Control-Allow-Origin" = "Access-Control-Allow-Origin"
  /\ CanonicalMIMEHeaderKey "Access-Control-Allow-Methods" = "Access-Control-Allow-Methods"
  /\ CanonicalMIMEHeaderKey "Access-Control-Allow-Headers" = "Access-Control-Allow-Headers"
  /\ CanonicalMIMEHeaderKey "X-Request-ID" = "X-Request-Id".
Proof. repeat split. Qed.

Lemma Header_Get_Set_ne h k k' v :
  CanonicalMIMEHeaderKey k <> CanonicalMIMEHeaderKey k' ->
  Header_Get (Header_Set h k v) k' = Header_Get h k'.
Proof. intros H. unfold Header_Get, Header_Set. now rewrite lookup_insert_ne. Qed.

Lemma corsHeaders_sent p :
  Header_Get (header (corsHeaders p)) "Access-Control-Allow-Origin" = "http://localhost:5173"
  /\ Header_Get (header (corsHeaders p)) "Access-Control-Allow-Methods"
     = "GET, POST, PUT, DELETE, OPTIONS"
  /\ Header_Get (header (corsHeaders p)) "Access-Control-Allow-Headers"
     = "Content-Type, X-Request-ID".
Proof.
  unfold corsHeaders, setHeader. cbn [header]. repeat split.
  - rewrite !Header_Get_Set_ne by (vm_compute; discriminate). apply Header_Get_Set.
  - rewrite Header_Get_Set_ne by (vm_compute; discriminate). apply Header_Get_Set.
  - apply Header_Get_Set.
Qed.

(** X3: an OPTIONS request ends in [corsMiddleware]: whatever handler the
    chain wraps, the answer is 200 with the three CORS headers and no
    body, nothing is logged, no request id is generated or set, and no
    logging writer is created. *)
Theorem preflight_reaches_no_handler (h : Handler) (r : Request) (w : World)
    (Hm : eqs (Method r) "OPTIONS" = true)
    (Hfresh : committed (resp w) = None) :
  let w' := snd (chain h connWriter r w) in
  fst (chain h connWriter r w) = Returned tt
  /\ (forall h', chain h' connWriter r w = chain h connWriter r w)
  /\ committed (resp w') = Some (StatusOK, header (corsHeaders (resp w)))
  /\ body (resp w') = body (resp w)
  /\ Header_Get (header (corsHeaders (resp w))) "Access-Control-Allow-Origin"
     = "http://localhost:5173"
  /\ Header_Get (header (corsHeaders (resp w))) "X-Request-ID"
     = Header_Get (header (resp w)) "X-Request-ID"
  /\ logs w' = logs w /\ uuids w' = uuids w /\ cells w' = cells w.
Proof.
  cbv zeta. rewrite chain_preflight by assumption. cbn [fst snd].
  destruct (preflight_world w Hfresh) as (Hc & Hb & Hl).
  split; [reflexivity|]. split; [intros h'; now rewrite chain_preflight|].
  split; [exact Hc|]. split; [exact Hb|].
  split; [apply corsHeaders_sent|].
  split; [|split; [exact Hl|split; reflexivity]].
  unfold corsHeaders, setHeader. cbn [header].
  now rewrite !Header_Get_Set_ne by (vm_compute; discriminate).
Qed.

Lemma preflight_reaches_no_handler_witness :
  eqs (Method (req0 "OPTIONS" "/api/containers")) "OPTIONS" = true
  /\ committed (resp world0) = None
  /\ probeServer connWriter (req0 "OPTIONS" "/api/containers") world0
     = boomServer connWriter (req0 "OPTIONS" "/api/containers") world0.
Proof.
  split; [reflexivity|]. split; [reflexivity|].
  unfold probeServer, boomServer, handler.
  now destruct (preflight_reaches_no_handler
                  (ServeHTTP (mux probeContainers probeImages boomCompose (probe "static")))
                  (req0 "OPTIONS" "/api/containers") world0 eq_refl eq_refl)
    as (_ & H & _).
Defined.

(** X4: for a request that is not OPTIONS, the response carries the
    request id in [X-Request-ID] before the handler runs; when the handler
    returns, the chain adds one access line to the log, with that id, the
    method, the path of the request's URL as the handler left it, the
    status kept by the logging writer and the time the handler took, and
    leaves the response as the handler left it; when the handler panics
    the log gets the panic entry and no access line, and after the panic
    entry the server's line about the superfluous [WriteHeader] when the
    handler had started its response. *)
Theorem access_line_carries_request_id (h : Handler) (r : Request) (w : World)
    (Hm : eqs (Method r) "OPTIONS" = false) :
  let w' := snd (chain h connWriter r w) in
  Header_Get (header (resp (entered r w))) "X-Request-ID" = requestIDOf r w
  /\ match h (chainWriter w) (delivered r w) (entered r w) with
     | (Returned tt, s1) =>
         resp w' = resp s1
         /\ logs w'
            = (logs s1 ++
               [Printf "[%s] %s %s %d %s"
                  [LValue (Some (requestIDOf r w)); LStr (Method r);
                   LStr (default (Path r) (urlPath s1));
                   LInt (default 0 (cells s1 !! List.length (cells w)));
                   LDuration (clock s1 - clock w)]])%list
     | (Panicking v, s1) =>
         logs w'
         = (logs s1 ++ panicEntry v
              :: match wireStatus s1 with
                 | Some _ => [superfluousEntry]
                 | None => []
                 end)%list
     end.
Proof.
  cbv zeta. split.
  { unfold entered, afterRequestID. cbn [resp set_cells set_resp set_uuids header setHeader].
    apply Header_Get_Set. }
  rewrite chain_run by assumption.
  destruct (h _ _ _) as [[[]|v] s1]; cbn [snd]; [split; reflexivity|].
  now rewrite logs_recovered, superfluous_status.
Qed.

(** [GET /settings/profile] is served by the static route, which
    rewrites the path: the access line names [/]. *)
Lemma access_line_carries_request_id_witness :
  eqs (Method (req0 "GET" "/settings/profile")) "OPTIONS" = false
  /\ Header_Get (header (resp (entered (req0 "GET" "/settings/profile") world0)))
       "X-Request-ID"
     = "6ba7b810-9dad-41d1-80b4-00c04fd430c8"
  /\ logs (snd (probeServer connWriter (req0 "GET" "/settings/profile") world0))
     = [Printf "[%s] %s %s %d %s"
          [LValue (Some "6ba7b810-9dad-41d1-80b4-00c04fd430c8"); LStr "GET"; LStr "/";
           LInt 200; LDuration 0]].
Proof.
  split; [reflexivity|].
  destruct (access_line_carries_request_id
              (ServeHTTP (mux probeContainers probeImages probeCompose (probe "static")))
              (req0 "GET" "/settings/profile") world0 eq_refl) as [H L].
  split; [rewrite H; vm_compute; reflexivity|].
  vm_compute. reflexivity.
Defined.

Lemma lateFailure_run data error code n r s :
  lateFailure data error code (responseWriter connWriter n) r s
  = (Returned tt,
     set_cells (fun m => <[n := code]> m)
       (failed error code (set_resp (appendBody data) s))).
Proof. reflexivity. Qed.

Lemma late_error_response data error code p :
  committed p = None ->
  fst <$> committed (errorResponse error code (appendBody data p)) = Some StatusOK
  /\ body (errorResponse error code (appendBody data p)) = body p +:+ data +:+ error +:+ nl.
Proof.
  destruct p as [h [c|] b]; [discriminate|]. intros _. split; [reflexivity|].
  cbn. now rewrite append_assoc.
Qed.

Lemma superfluous_written data s :
  superfluous (set_resp (appendBody data) s) = [superfluousEntry].
Proof.
  unfold superfluous, appendBody, commit. cbn [resp set_resp committed].
  destruct (committed (resp s)) as [c|] eqn:E; cbn [committed]; [now rewrite E|reflexivity].
Qed.

(** X5: [responseWriter.WriteHeader] records every status it is passed,
    also one the connection ignores: for a handler that writes data and
    then fails with [http.Error(w, error, code)], the client gets 200 with
    both texts, the server logs the superfluous [WriteHeader], and the
    access line that follows names [code]. *)
Theorem access_line_status_is_last_written (data error : string) (code : Z)
    (r : Request) (w : World)
    (Hm : eqs (Method r) "OPTIONS" = false)
    (Hfresh : committed (resp w) = None) :
  let w' := snd (chain (lateFailure data error code) connWriter r w) in
  wireStatus w' = Some StatusOK
  /\ body (resp w') = body (resp w) +:+ data +:+ error +:+ nl
  /\ logs w'
     = (logs w ++ [superfluousEntry; accessEntry (seen (identified r w) w) code 0])%list.
Proof.
  cbv zeta. rewrite chain_run by assumption.
  unfold chainWriter. rewrite lateFailure_run. cbn [snd].
  destruct (late_error_response data error code (resp (entered r w))) as [Hs Hb];
    [exact Hfresh|].
  split; [|split].
  - exact Hs.
  - unfold failed. cbn [resp set_logs set_cells set_resp]. now rewrite Hb.
  - unfold failed. cbn [logs set_logs set_cells set_resp cells clock].
    rewrite superfluous_written.
    rewrite list_lookup_insert_eq by (cbn [entered cells set_cells]; rewrite length_app; cbn; lia).
    cbn [default]. replace (clock (entered r w) - clock w) with 0 by (cbn; lia).
    now rewrite <- app_assoc.
Qed.

Lemma access_line_status_is_last_written_witness :
  eqs (Method (req0 "GET" "/health")) "OPTIONS" = false
  /\ committed (resp world0) = None
  /\ wireStatus (snd (chain (lateFailure "partial" "failed" 500) connWriter
                         (req0 "GET" "/health") world0)) = Some 200
  /\ logs (snd (chain (lateFailure "partial" "failed" 500) connWriter
                   (req0 "GET" "/health") world0))
     = [superfluousEntry; accessEntry (identified (req0 "GET" "/health") world0) 500 0].
Proof.
  split; [reflexivity|]. split; [reflexivity|].
  destruct (access_line_status_is_last_written "partial" "failed" 500
              (req0 "GET" "/health") world0 eq_refl eq_refl) as (H1 & _ & H3).
  split; [exact H1|exact H3].
Defined.

Lemma ctxErr_None_iff c t : ctxErr c t = None <-> Done c t = false.
Proof. unfold ctxErr. destruct (Done c t); split; congruence. Qed.

Lemma Done_WithTimeout_now c now d :
  0 < d -> Done (WithTimeout c now d) now = Done c now.
Proof.
  intros Hd. unfold WithTimeout. cbn [Done].
  replace (now + d <=? now) with false by (symmetry; apply Z.leb_gt; lia).
  apply orb_false_r.
Qed.

Lemma Deadline_WithTimeout c now d :
  exists t, Deadline (WithTimeout c now d) = Some t /\ t <= now + d
            /\ (forall t', Deadline c = Some t' -> t <= t').
Proof.
  unfold WithTimeout. cbn [Deadline]. destruct (Deadline c) as [t'|].
  - exists (Z.min t' (now + d)). split; [reflexivity|]. split; [lia|].
    intros ? [= <-]. lia.
  - exists (now + d). split; [reflexivity|]. split; [lia|]. discriminate.
Qed.

Lemma dockerInfoHandler_run r s :
  dockerInfoHandler connWriter r s
  = (Returned tt,
     match callErr (WithTimeout (ctx r) (clock s) (5 * Second)) s with
     | Some err => failed ("Failed to get Docker info: " +:+ err)
                     StatusInternalServerError s
     | None => set_resp (infoResponse (infoJSON (engine s))) s
     end).
Proof.
  unfold dockerInfoHandler, client_Info. go_unfold. cbn -[Error callErr WithTimeout].
  destruct (callErr (WithTimeout (ctx r) (clock s) (5 * Second)) s); reflexivity.
Qed.

Lemma callErr_WithTimeout_now c s d :
  0 < d ->
  callErr (WithTimeout c (clock s) d) s = None
  <-> daemonErr (engine s) = None /\ Done c (clock s) = false.
Proof.
  intros Hd. unfold callErr.
  destruct (ctxErr (WithTimeout c (clock s) d) (clock s)) as [e|] eqn:E.
  - split; [discriminate|]. intros [_ H].
    rewrite <- (Done_WithTimeout_now c (clock s) d Hd) in H.
    apply ctxErr_None_iff in H. congruence.
  - apply ctxErr_None_iff in E. rewrite Done_WithTimeout_now in E by assumption. tauto.
Qed.

(** X6: [dockerInfoHandler] always returns; with the client call answered
    at once, as [callErr] has it, the handler answers 200 exactly when the
    daemon can be reached and the request's context is not done when the
    call is made, then with the engine's reply as JSON; otherwise it
    answers 500 with the error of the call after
    [Failed to get Docker info: ].  The call is given a deadline at most
    5 seconds ahead. *)
Theorem docker_info_ok_iff_engine_answers (r : Request) (s : World)
    (Hfresh : committed (resp s) = None) :
  let call := WithTimeout (ctx r) (clock s) (5 * Second) in
  let s' := snd (dockerInfoHandler connWriter r s) in
  fst (dockerInfoHandler connWriter r s) = Returned tt
  /\ (wireStatus s' = Some StatusOK
      <-> daemonErr (engine s) = None /\ Done (ctx r) (clock s) = false)
  /\ (wireStatus s' = Some StatusOK ->
      body (resp s') = body (resp s) +:+ infoJSON (engine s) +:+ nl
      /\ Header_Get (header (resp s')) "Content-Type" = "application/json")
  /\ (wireStatus s' <> Some StatusOK ->
      wireStatus s' = Some StatusInternalServerError
      /\ exists err, callErr call s = Some err
           /\ body (resp s') = body (resp s) +:+ ("Failed to get Docker info: " +:+ err) +:+ nl)
  /\ exists t, Deadline call = Some t /\ t <= clock s + 5 * Second.
Proof.
  cbv zeta. rewrite dockerInfoHandler_run. cbn [fst snd].
  pose proof (callErr_WithTimeout_now (ctx r) s (5 * Second) eq_refl) as Hcall.
  destruct (callErr (WithTimeout (ctx r) (clock s) (5 * Second)) s) as [err|] eqn:E.
  - assert (Hst : wireStatus (failed ("Failed to get Docker info: " +:+ err)
                                  StatusInternalServerError s)
                  = Some StatusInternalServerError)
      by (apply status_errorResponse; assumption).
    split; [reflexivity|]. split; [|split; [|split]].
    + rewrite Hst. split; [discriminate|]. intros H. apply Hcall in H. discriminate.
    + rewrite Hst. discriminate.
    + intros _. split; [exact Hst|]. exists err. split; [reflexivity|].
      unfold failed. cbn [resp set_resp set_logs]. apply body_errorResponse.
    + destruct (Deadline_WithTimeout (ctx r) (clock s) (5 * Second)) as (t & Ht & Hle & _). eauto.
  - assert (Hst : wireStatus (set_resp (infoResponse (infoJSON (engine s))) s) = Some StatusOK).
    { unfold wireStatus. cbn [resp set_resp]. destruct (resp s) as [h [c|] b]; [discriminate|].
      reflexivity. }
    split; [reflexivity|]. split; [|split; [|split]].
    + rewrite Hst. split; [intros _; now apply Hcall|reflexivity].
    + intros _. cbn [resp set_resp]. split.
      * destruct (resp s) as [h [c|] b]; reflexivity.
      * unfold infoResponse, appendBody, commit, setHeader. cbn [header committed].
        destruct (committed (resp s)); cbn [header]; apply Header_Get_Set.
    + rewrite Hst. congruence.
    + destruct (Deadline_WithTimeout (ctx r) (clock s) (5 * Second)) as (t & Ht & Hle & _). eauto.
Qed.

Lemma docker_info_ok_iff_engine_answers_witness :
  committed (resp world0) = None
  /\ wireStatus (snd (dockerInfoHandler connWriter (req0 "GET" "/docker/info") world0))
     = Some StatusOK.
Proof.
  split; [reflexivity|].
  destruct (docker_info_ok_iff_engine_answers (req0 "GET" "/docker/info") world0 eq_refl)
    as (_ & H & _).
  apply H. split; reflexivity.
Defined.

Lemma main_ping w f :
  callErr (WithTimeout Background (clock w) (10 * Second)) (set_logs f w)
  = daemonErr (engine w).
Proof.
  unfold callErr. cbn [clock engine set_logs].
  assert (H : ctxErr (WithTimeout Background (clock w) (10 * Second)) (clock w) = None).
  { apply ctxErr_None_iff. rewrite Done_WithTimeout_now by reflexivity. reflexivity. }
  now rewrite H.
Qed.

(** X7: [main] gets to listen on [:8080] exactly when the client is
    created and the daemon answers the ping; otherwise it exits with
    status 1 after two log lines, the second naming the failure (a client
    that cannot be created is reported without a ping). *)
Theorem main_listens_iff_client_and_ping_succeed (newClientErr : option string) (w : World) :
  let w' := snd (main newClientErr w) in
  (fst (main newClientErr w) = Returned (Listening ":8080")
   <-> newClientErr = None /\ daemonErr (engine w) = None)
  /\ (fst (main newClientErr w) <> Returned (Listening ":8080") ->
      fst (main newClientErr w) = Returned (Exited 1)
      /\ exists fmt err,
           logs w' = (logs w ++ [Printf "Starting Docker management service..." [];
                                 Printf fmt [LStr err]])%list
           /\ (newClientErr = Some err /\ fmt = "Failed to create Docker client: %v"
               \/ newClientErr = None /\ daemonErr (engine w) = Some err
                  /\ fmt = "Failed to connect to Docker daemon: %v"))
  /\ resp w' = resp w /\ clock w' = clock w /\ engine w' = engine w.
Proof.
  cbv zeta. unfold main, log_Fatalf, log_Println, client_Ping. go_unfold.
  cbn -[callErr WithTimeout]. destruct newClientErr as [err|].
  - cbn. split; [split; [discriminate|intros [? _]; discriminate]|].
    split; [|auto]. intros _. split; [reflexivity|].
    exists "Failed to create Docker client: %v", err.
    split; [now rewrite <- app_assoc|]. left. auto.
  - cbn -[callErr WithTimeout]. rewrite main_ping.
    destruct (daemonErr (engine w)) as [err|] eqn:E.
    + cbn. split; [split; [discriminate|intros [_ ?]; discriminate]|].
      split; [|auto]. intros _. split; [reflexivity|].
      exists "Failed to connect to Docker daemon: %v", err.
      split; [now rewrite <- app_assoc|]. right. auto.
    + cbn. split; [split; auto|]. split; [|auto]. intros H. now destruct H.
Qed.

Lemma cleanPath_starts_with_slash p : exists t, cleanPath p = String "/" t.
Proof.
  destruct p as [|c p]; [now exists EmptyString|].
  unfold cleanPath, path_Clean.
  repeat match goal with |- context [if ?b then _ else _] => destruct b end;
    simpl String.append; eauto.
Qed.

Lemma append_slash_inj p q : p +:+ "/" = q +:+ "/" -> p = q.
Proof.
  revert q. induction p as [|c p IH]; intros [|d q]; simpl String.append; intros H.
  - reflexivity.
  - injection H as _ H. destruct q; discriminate.
  - injection H as _ H. destruct p; discriminate.
  - injection H as -> H. f_equal. now apply IH.
Qed.

Lemma HasSuffix_append_slash p : HasSuffix (p +:+ "/") "/" = true.
Proof.
  induction p as [|c p IH]; [reflexivity|].
  simpl String.append. cbn [HasSuffix]. rewrite IH. apply orb_true_r.
Qed.

Section StaticFacts.

Variable containerHandler : ContainerHandler.
Variable imageHandler : ImageHandler.
Variable composeHandler : ComposeHandler.
Variable fileServer : Handler.

Lemma registered_mux_slash p :
  p <> EmptyString -> p <> "/api" ->
  registered (mux containerHandler imageHandler composeHandler fileServer) (p +:+ "/") = false.
Proof.
  intros Hne Hapi. unfold registered, mux. cbn [existsb fst].
  rewrite !orb_false_r.
  assert (H1 : eqs "/health" (p +:+ "/") = false).
  { apply eqs_neq. intros H.
    pose proof (HasSuffix_append_slash p) as S. rewrite <- H in S. discriminate. }
  assert (H2 : eqs "/api/" (p +:+ "/") = false).
  { apply eqs_neq. intros H. apply Hapi. symmetry.
    apply append_slash_inj. exact H. }
  assert (H3 : eqs "/" (p +:+ "/") = false).
  { apply eqs_neq. intros H. apply Hne. symmetry.
    apply append_slash_inj. exact H. }
  now rewrite H1, H2, H3.
Qed.

(** X8: a request with a canonical path other than [/health] and
    outside [/api] is served by the file server and by nothing else: as
    it came for [/] and for paths under [/assets/], and with the path
    rewritten to [/] for every other path, on the URL the request shares
    with the one [loggingMiddleware] holds. *)
Theorem outside_api_everything_is_the_file_server (w : ResponseWriter) (r : Request) (s : World)
    (Hcanon : cleanPath (Path r) = Path r)
    (Hhealth : Path r <> "/health")
    (Hapi : Path r <> "/api")
    (Hunder : HasPrefix (Path r) "/api/" = false) :
  ServeHTTP (mux containerHandler imageHandler composeHandler fileServer) w r s
  = fileServer w (if eqs (Path r) "/" || HasPrefix (Path r) "/assets/"
                  then r else WithPath r "/")
      (if eqs (Path r) "/" || HasPrefix (Path r) "/assets/"
       then s else set_urlPath "/" s).
Proof.
  destruct (cleanPath_starts_with_slash (Path r)) as [t Ht]. rewrite Hcanon in Ht.
  unfold ServeHTTP. rewrite Hcanon, if_same. cbv zeta.
  rewrite registered_mux_slash by (try assumption; rewrite Ht; discriminate).
  rewrite andb_false_r, eqs_refl. cbn [negb].
  assert (Hmatch : mux_match (mux containerHandler imageHandler composeHandler fileServer) (Path r)
                   = Some ("/", staticRoute fileServer)).
  { unfold mux. cbn [mux_match]. unfold patternMatches.
    change (HasSuffix "/health" "/") with false.
    change (HasSuffix "/api/" "/") with true.
    change (HasSuffix "/" "/") with true. cbv iota.
    rewrite Hunder.
    assert (Hh : eqs "/health" (Path r) = false) by (apply eqs_neq; congruence).
    rewrite Hh. rewrite Ht. reflexivity. }
  rewrite Hmatch. unfold staticRoute.
  destruct (eqs (Path r) "/"), (HasPrefix (Path r) "/assets/"); reflexivity.
Qed.

End StaticFacts.

Lemma outside_api_everything_is_the_file_server_witness :
  ServeHTTP (mux probeContainers probeImages probeCompose (probe "static")) connWriter
    (req0 "GET" "/settings/profile") world0
  = probe "static" connWriter (req0 "GET" "/") (set_urlPath "/" world0).
Proof.
  apply (outside_api_everything_is_the_file_server probeContainers probeImages probeCompose
           (probe "static") connWriter (req0 "GET" "/settings/profile") world0);
    [reflexivity|discriminate|discriminate|reflexivity].
Defined.

Lemma composeRoute_panics (ch : ComposeHandler) (w : ResponseWriter) (r : Request) (s : World) :
  List.length (Split (TrimPrefix (Path r) "/compose/projects/") slash) = 1%nat ->
  eqs (Method r) MethodGet = false ->
  composeRoute ch w r s = (Panicking outOfRange, s).
Proof.
  intros Hlen Hm. unfold composeRoute.
  rewrite (Split_single _ _ Hlen), Hm. go_unfold. cbn.
  destruct (eqs _ EmptyString); cbn; rewrite ?andb_false_r; reflexivity.
Qed.

(** X2: [composeRoute] on any request: when the path after
    [/compose/projects/] is a single element and the method is not GET it
    panics on [parts[1]], having written and logged nothing; in every
    other case it calls the one target of [routeTable], after the log
    line of [routeLog]. *)
Theorem composeRoute_follows_table_or_panics
    (ch : ComposeHandler) (w : ResponseWriter) (r : Request) (s : World) :
  let parts := Split (TrimPrefix (Path r) "/compose/projects/") slash in
  if (List.length parts =? 1)%nat && negb (eqs (Method r) MethodGet)
  then composeRoute ch w r s = (Panicking outOfRange, s)
  else composeRoute ch w r s
       = invoke ch (routeTable (Method r) parts) w r
           (set_logs (fun l => (l ++ routeLog (Method r) parts)%list) s).
Proof.
  cbv zeta.
  destruct (List.length _ =? 1)%nat eqn:Hlen; cbn [andb].
  - apply Nat.eqb_eq in Hlen. destruct (eqs (Method r) MethodGet) eqn:Hm; cbn [negb].
    + apply composeRoute_table. intros _. exact Hm.
    + now apply composeRoute_panics.
  - apply Nat.eqb_neq in Hlen. apply composeRoute_table. intros H. contradiction.
Qed.


Section ApiFacts.

Variable containerHandler : ContainerHandler.
Variable imageHandler : ImageHandler.
Variable composeHandler : ComposeHandler.
Variable fileServer : Handler.


End ApiFacts.


(** ** The dashboard module under any run *)

Module DashboardFacts.

Import Stores Dashboard.

Local Open Scope list_scope.

Lemma pageAfter_from {T : Type} (empty : T) (ops : list (@StoreOp T)) (pg : @Page T)
    (acc : option (Z * T)) :
  data (fst pg) = from_option snd empty acc ->
  lastUpdated (fst pg) = fst <$> acc ->
  data (fst (fold_left applyStoreOp ops pg)) = from_option snd empty (fold_left success ops acc)
  /\ lastUpdated (fst (fold_left applyStoreOp ops pg)) = fst <$> fold_left success ops acc.
Proof.
  revert pg acc. induction ops as [|op ops IH]; intros pg acc Hd Ht; [now split|].
  cbn [fold_left]. apply IH; destruct op as [now d|l| |now [d|error]]; cbn; assumption || reflexivity.
Qed.

(** X10: after any sequence of [set], [setLoading] and [refresh] calls,
    overlapping or not, a loading store holds the value and the time of
    the latest [set] or resolved fetch, and its initial value with no
    time when there was none: a rejected fetch, [setLoading] and the
    start of a [refresh] never touch [data] or [lastUpdated]. *)
Theorem store_shows_latest_success {T : Type} (empty : T) (ops : list (@StoreOp T)) :
  let s := fst (pageAfter empty ops) in
  data s = from_option snd empty (lastSuccess ops)
  /\ lastUpdated s = fst <$> lastSuccess ops
  /\ (lastUpdated s = None -> data s = empty).
Proof.
  cbv zeta.
  destruct (pageAfter_from empty ops (initial empty, []) None eq_refl eq_refl) as [Hd Ht].
  split; [exact Hd|]. split; [exact Ht|].
  unfold pageAfter. rewrite Hd, Ht. unfold lastSuccess.
  destruct (fold_left success ops None); [discriminate|reflexivity].
Qed.

Section ModuleFacts.

Context {V : Type}.

Implicit Types (m : @State V) (events : list (@Event V)).

Lemma run_app events more m :
  run (events ++ more) m = match run events m with Some m' => run more m' | None => None end.
Proof.
  revert m. induction events as [|e events IH]; intros m; [reflexivity|].
  cbn [run app]. destruct (handle e m); [apply IH|reflexivity].
Qed.

(** An invariant of the state holds after every run when every event
    keeps it. *)
Lemma run_invariant (P : @State V -> Prop) :
  (forall e m m', P m -> handle e m = Some m' -> P m') ->
  forall events m m', P m -> run events m = Some m' -> P m'.
Proof.
  intros Hstep. induction events as [|e events IH]; intros m m' HP Hrun.
  - injection Hrun as <-. exact HP.
  - cbn [run] in Hrun. destruct (handle e m) as [m1|] eqn:E; [|discriminate].
    exact (IH m1 m' (Hstep e m m1 HP E) Hrun).
Qed.

(** What the four cases of [handleWebSocketMessage] and the interval
    have in common: they start at most one refresh, never the one of
    [diskUsageStore], and with the store's own client method.  The other
    events settle a fetch or touch the error store only. *)
Lemma handle_starts e m m' :
  handle e m = Some m' ->
  (exists i, i <> diskUsageStore /\ m' = refreshStart i (clientCall i) m)
  \/ m' = m
  \/ (exists k now outcome, e = Settle k now outcome /\ refreshEnd k now outcome m = Some m')
  \/ (exists f, m' = setErrors f m).
Proof.
  destruct e as [[t|]| |k now outcome|error|]; cbn [handle].
  - intros [= <-]. unfold handleWebSocketMessage.
    destruct (String.eqb t "container"); [left; now exists containersStore|].
    destruct (String.eqb t "image"); [left; now exists imagesStore|].
    destruct (String.eqb t "compose"); [left; now exists composeStore|].
    destruct (String.eqb t "system"); [left; now exists systemStore|].
    right. now left.
  - intros [= <-]. right. now left.
  - intros [= <-]. left. now exists systemStore.
  - intros H. right. right. left. eauto.
  - intros [= <-]. right. right. right. eauto.
  - intros [= <-]. right. right. right. eauto.
Qed.

Lemma elem_of_delete_other {A B : Type} (l : list (A * B)) (k : nat) (x y : A * B) :
  l !! k = Some y -> x ∈ l -> fst x <> fst y -> x ∈ delete k l.
Proof.
  revert k. induction l as [|z l IH]; intros k Hk Hx Hne; [inversion Hx|].
  destruct k as [|k]; cbn in *.
  - injection Hk as ->. apply elem_of_cons in Hx as [->|Hx]; [contradiction|exact Hx].
  - apply elem_of_cons in Hx as [->|Hx]; [apply list_elem_of_here|].
    apply list_elem_of_further. now apply IH.
Qed.

(** *** Loading flags *)

Lemma loadingHasFetch_start i c m : loadingHasFetch m -> loadingHasFetch (refreshStart i c m).
Proof.
  intros H j. unfold refreshStart, setStore. cbn.
  destruct (decide (j = i)) as [->|Hne].
  - intros _. exists c. apply elem_of_app. right. apply list_elem_of_singleton. reflexivity.
  - intros Hl. destruct (H j Hl) as [c' Hc']. exists c'. apply elem_of_app. now left.
Qed.

Lemma loadingHasFetch_end k now outcome m m' :
  loadingHasFetch m -> refreshEnd k now outcome m = Some m' -> loadingHasFetch m'.
Proof.
  intros H. unfold refreshEnd. destruct (inflight m !! k) as [[i c]|] eqn:E; [|discriminate].
  intros [= <-] j. unfold setStore. cbn.
  destruct (decide (j = i)) as [->|Hne].
  - destruct outcome; cbn; discriminate.
  - intros Hl. destruct (H j Hl) as [c' Hc']. exists c'.
    apply (elem_of_delete_other _ _ _ _ E Hc'). exact Hne.
Qed.

Lemma loadingHasFetch_handle e m m' :
  loadingHasFetch m -> handle e m = Some m' -> loadingHasFetch m'.
Proof.
  intros H He.
  destruct (handle_starts e m m' He)
    as [(i & _ & ->)|[->|[(k & now & o & _ & Hend)|(f & ->)]]].
  - now apply loadingHasFetch_start.
  - exact H.
  - exact (loadingHasFetch_end _ _ _ _ _ H Hend).
  - exact H.
Qed.

Lemma loadingHasFetch_setup (empty : V) : loadingHasFetch (setupAutoRefresh (initialState empty)).
Proof.
  unfold setupAutoRefresh. repeat apply loadingHasFetch_start.
  intros i. cbn. discriminate.
Qed.

(** X11: from [setupAutoRefresh] on, under any messages, interval
    firings and settlings (and any calls of the error store), a store
    that shows [loading] has a fetch pending: both branches of [refresh]
    reset the flag, so once no fetch is pending no store is loading. *)
Theorem loading_store_has_a_fetch_in_flight (empty : V) events m
    (Hrun : run events (setupAutoRefresh (initialState empty)) = Some m) :
  (forall i, loading (stores m i) = true -> exists c, (i, c) ∈ inflight m)
  /\ (inflight m = [] -> forall i, loading (stores m i) = false).
Proof.
  assert (H : loadingHasFetch m).
  { exact (run_invariant loadingHasFetch loadingHasFetch_handle events _ m
             (loadingHasFetch_setup empty) Hrun). }
  split; [exact H|].
  intros Hnil i. destruct (loading (stores m i)) eqn:E; [|reflexivity].
  destruct (H i E) as [c Hc]. rewrite Hnil in Hc. inversion Hc.
Qed.

(** *** The error store *)

Lemma errors_handle e m m' (acc : list DockerError) :
  handle e m = Some m' -> errors m = take 10 acc -> errors m' = take 10 (report acc e).
Proof.
  intros He Hacc. destruct e as [t| |k now o|error|]; cbn [handle report] in *.
  - injection He as <-. unfold handleWebSocketMessage.
    destruct t as [t|]; [|exact Hacc].
    repeat match goal with |- context [if ?b then _ else _] => destruct b end; exact Hacc.
  - injection He as <-. exact Hacc.
  - unfold refreshEnd in He. destruct (inflight m !! k) as [[j c]|]; [|discriminate].
    injection He as <-. destruct o as [d|error]; cbn; [exact Hacc|].
    rewrite Hacc. apply StoresFacts.add_take.
  - injection He as <-. cbn. rewrite Hacc. apply StoresFacts.add_take.
  - injection He as <-. reflexivity.
Qed.

Lemma errors_run events m m' (acc : list DockerError) :
  run events m = Some m' -> errors m = take 10 acc ->
  errors m' = take 10 (fold_left report events acc).
Proof.
  revert m acc. induction events as [|e events IH]; intros m acc Hrun Hacc.
  - injection Hrun as <-. exact Hacc.
  - cbn [run] in Hrun. destruct (handle e m) as [m1|] eqn:E; [|discriminate].
    cbn [fold_left]. exact (IH m1 _ Hrun (errors_handle e m m1 acc E Hacc)).
Qed.

Lemma reported_code events (acc : list DockerError) :
  forallb noAdd events = true ->
  Forall (fun e => code e = "FETCH_ERROR") acc ->
  Forall (fun e => code e = "FETCH_ERROR") (fold_left (@report V) events acc).
Proof.
  revert acc. induction events as [|e events IH]; intros acc Hno H; [exact H|].
  cbn [forallb] in Hno. apply andb_true_iff in Hno as [He Hno].
  cbn [fold_left]. apply (IH _ Hno).
  destruct e as [t| |k now [d|error]|error|]; cbn [report]; try exact H.
  - constructor; [reflexivity|exact H].
  - discriminate.
  - constructor.
Qed.

(** X12: from [setupAutoRefresh] on, under any messages, interval
    firings, settlings and calls of [errorStore.add] and
    [errorStore.clear], the error store holds the latest 10 errors
    reported since the last [clear], newest first: the [FETCH_ERROR] of
    every rejected fetch and every error passed to [add].  In a run
    without [add], every entry has the code [FETCH_ERROR]. *)
Theorem module_errors_are_the_latest_reported (empty : V) events m
    (Hrun : run events (setupAutoRefresh (initialState empty)) = Some m) :
  errors m = take 10 (reported events)
  /\ (List.length (errors m) <= 10)%nat
  /\ (forallb noAdd events = true ->
      Forall (fun e => code e = "FETCH_ERROR") (errors m)).
Proof.
  assert (H : errors m = take 10 (reported events))
    by exact (errors_run events _ m [] Hrun eq_refl).
  split; [exact H|]. split.
  - rewrite H, length_take. lia.
  - intros Hno. rewrite H. apply Forall_take. apply reported_code; [exact Hno|constructor].
Qed.

(** *** The client calls *)

Lemma diskFetchedOnce_handle e m m' :
  diskFetchedOnce m -> handle e m = Some m' -> diskFetchedOnce m'.
Proof.
  unfold diskFetchedOnce. intros H He.
  destruct (handle_starts e m m' He)
    as [(i & Hi & ->)|[->|[(k & now & o & _ & Hend)|(f & ->)]]].
  - cbn. rewrite filter_app, H. destruct i; cbn; reflexivity || contradiction.
  - exact H.
  - unfold refreshEnd in Hend. destruct (inflight m !! k) as [[j c]|]; [|discriminate].
    injection Hend as <-. exact H.
  - exact H.
Qed.

Lemma wired_handle e m m' : wired m -> handle e m = Some m' -> wired m'.
Proof.
  unfold wired. intros H He.
  destruct (handle_starts e m m' He)
    as [(i & Hi & ->)|[->|[(k & now & o & _ & Hend)|(f & ->)]]].
  - cbn. apply Forall_app. split; [exact H|]. constructor; [reflexivity|constructor].
  - exact H.
  - unfold refreshEnd in Hend. destruct (inflight m !! k) as [[j c]|]; [|discriminate].
    injection Hend as <-. cbn. apply Forall_delete. exact H.
  - exact H.
Qed.

Lemma diskSettled_handle e m m' :
  diskSettled m -> handle e m = Some m' ->
  diskSettled m' /\ stores m' diskUsageStore = stores m diskUsageStore.
Proof.
  unfold diskSettled. intros H He.
  destruct (handle_starts e m m' He)
    as [(i & Hi & ->)|[->|[(k & now & o & _ & Hend)|(f & ->)]]];
    [| |
     |now split].
  - split.
    + intros c Hc. cbn in Hc. apply elem_of_app in Hc as [Hc|Hc]; [exact (H c Hc)|].
      apply list_elem_of_singleton in Hc. injection Hc as Hc _. congruence.
    + cbn. unfold setStore. destruct (decide (diskUsageStore = i)); [congruence|reflexivity].
  - now split.
  - unfold refreshEnd in Hend. destruct (inflight m !! k) as [[j c]|] eqn:E; [|discriminate].
    injection Hend as <-. split.
    + intros c' Hc'. cbn in Hc'. apply list_elem_of_delete_inv in Hc'. exact (H c' Hc').
    + cbn. unfold setStore. destruct (decide (diskUsageStore = j)) as [<-|]; [|reflexivity].
      exfalso. apply (H c). exact (list_elem_of_lookup_2 _ _ _ E).
Qed.

Lemma diskSettled_run events m m' :
  diskSettled m -> run events m = Some m' ->
  diskSettled m' /\ stores m' diskUsageStore = stores m diskUsageStore.
Proof.
  revert m. induction events as [|e events IH]; intros m H Hrun.
  - injection Hrun as <-. now split.
  - cbn [run] in Hrun. destruct (handle e m) as [m1|] eqn:E; [|discriminate].
    destruct (diskSettled_handle e m m1 H E) as [H1 Hs].
    destruct (IH m1 H1 Hrun) as [H2 Hs']. split; [exact H2|congruence].
Qed.

(** X13: from [setupAutoRefresh] on, [getDiskUsage] is called once, in
    the initial load: neither a message nor the interval refreshes
    [diskUsageStore], so once that fetch has settled the store never
    changes again under the events of the module (and the calls of the
    error store).  Every pending fetch is the one of its own store. *)
Theorem disk_usage_is_fetched_once (empty : V) events m
    (Hrun : run events (setupAutoRefresh (initialState empty)) = Some m) :
  filter (fun c => c = getDiskUsage) (requests m) = [getDiskUsage]
  /\ Forall (fun p => snd p = clientCall (fst p)) (inflight m)
  /\ ((forall c, (diskUsageStore, c) ∉ inflight m) ->
      forall more m', run more m = Some m' ->
        stores m' diskUsageStore = stores m diskUsageStore).
Proof.
  split; [|split].
  - refine (run_invariant diskFetchedOnce diskFetchedOnce_handle events _ m _ Hrun).
    reflexivity.
  - refine (run_invariant wired wired_handle events _ m _ Hrun).
    unfold wired. cbn. repeat constructor.
  - intros Hs more m' Hmore. exact (proj2 (diskSettled_run more m m' Hs Hmore)).
Qed.

End ModuleFacts.

(** On [overlapRun] the stores of the initial load that have not
    settled show [loading] and have their fetch pending; the converse
    fails for [systemStore], whose first fetch has settled and cleared
    the flag while the second is pending. *)
Lemma loading_store_has_a_fetch_in_flight_witness :
  run overlapRun (setupAutoRefresh (initialState 0)) = Some overlapState
  /\ loading (stores overlapState containersStore) = true
  /\ (exists c, (containersStore, c) ∈ inflight overlapState)
  /\ loading (stores overlapState systemStore) = false
  /\ (systemStore, getSystemInfo) ∈ inflight overlapState.
Proof.
  split; [vm_compute; reflexivity|]. split; [reflexivity|]. split.
  - apply (loading_store_has_a_fetch_in_flight 0 overlapRun overlapState);
      [vm_compute|]; reflexivity.
  - split; [reflexivity|]. vm_compute. set_solver.
Defined.

Lemma module_errors_are_the_latest_reported_witness :
  run errorRun (setupAutoRefresh (initialState 0)) = Some errorState
  /\ errors errorState = [fetchError 12 (ErrorInstance "timeout"); sampleError "second"].
Proof.
  split; [vm_compute; reflexivity|].
  apply (module_errors_are_the_latest_reported 0 errorRun errorState).
  vm_compute. reflexivity.
Defined.

Lemma disk_usage_is_fetched_once_witness :
  run sampleRun (setupAutoRefresh (initialState 0)) = Some sampleState
  /\ filter (fun c => c = getDiskUsage) (requests sampleState) = [getDiskUsage]
  /\ stores sampleState diskUsageStore = initial 0.
Proof.
  split; [vm_compute; reflexivity|].
  split; [|reflexivity].
  apply (disk_usage_is_fetched_once 0 sampleRun sampleState).
  vm_compute. reflexivity.
Defined.

End DashboardFacts.
